(** * License override: backend service and front-end settings store

    A shallow embedding of the two TypeScript sources

    - the backend [LicenseService] (class with the constructor-time
      [patchLicenseForEnterprise], [getLicenseData], [activateLicense],
      [renewLicense], [registerCommunityEdition], ...), and
    - the front-end Pinia store [useSettingsStore] (settings.store.ts),

    followed by the properties of the specification, stated on these
    definitions. *)

From Stdlib Require Import ZArith.
From Stdlib Require QArith.
From stdpp Require Import gmap strings list fin_maps pretty.

Set Warnings "-register-all".

Local Open Scope Z_scope.
Local Open Scope string_scope.

(** [Number.MAX_SAFE_INTEGER], 2^53 - 1. *)
Definition MAX_SAFE_INTEGER : Z := 9007199254740991.

(** Outcome of running a (possibly async) function: it returns / its promise
    resolves, or it throws / its promise rejects. *)
Inductive completion (E A : Type) : Type :=
| Normal (a : A)
| Throw (e : E).
Arguments Normal {E A} a.
Arguments Throw {E A} e.

(** Property assignments [o.k = v] performed one after the other, on an
    object seen as a finite map from property names. *)
Definition assign_props {V} (o : gmap string V) (l : list (string * V))
  : gmap string V :=
  foldl (λ acc kv, <[kv.1 := kv.2]> acc) o l.

Fixpoint distinct_names (l : list string) : bool :=
  match l with
  | [] => true
  | x :: rest => negb (existsb (String.eqb x) rest) && distinct_names rest
  end.

(* ===================================================================== *)
(** * Backend: [LicenseService]                                           *)
(* ===================================================================== *)

Module LicenseService.

(** Plain data handed to the collaborators (log fields, event payloads,
    results of license getters). *)
Inductive jsval : Type :=
| VUndef
| VBool (b : bool)
| VNum (n : Z)
| VStr (s : string)
| VObj (fields : list (string * jsval)).

(** A method slot of a collaborator object: a closure from the argument list
    to the returned value. *)
Definition method : Type := list jsval → jsval.

(** [logger.info(message, fields?)] *)
Record log_entry : Type := LogEntry {
  log_level : string;
  log_message : string;
  log_fields : option (list (string * jsval));
}.

(** [eventService.emit(name, payload)] *)
Record event : Type := Event {
  event_name : string;
  event_payload : list (string * jsval);
}.

(** The workflow store, as far as the service queries it: what the two
    counting queries settle with in the current state of the store. *)
Record WorkflowRepository : Type := {
  getActiveTriggerCount : completion string Z;
  getWorkflowsWithEvaluationCount : completion string Z;
}.

(** The collaborators injected into the service.  They are shared: every
    service instance built from the same container acts on the same
    [license], [licenseState], logger and event bus. *)
Record world : Type := World {
  license : gmap string method;
  licenseState : gmap string method;
  workflowRepository : WorkflowRepository;
  logger : list log_entry;
  eventService : list event;
}.

(** State and exception monad of the service methods. *)
Definition M (A : Type) : Type := world → completion string A * world.

#[global] Instance M_ret : MRet M := λ A a w, (Normal a, w).

#[global] Instance M_bind : MBind M := λ A B k m w,
  match m w with
  | (Normal a, w') => k a w'
  | (Throw e, w') => (Throw e, w')
  end.

(** [await q]: the value the promise resolves with, or its rejection. *)
Definition await {A} (q : completion string A) : M A := λ w, (q, w).

Definition logger_info (msg : string) (fields : option (list (string * jsval)))
  : M unit :=
  λ w, (Normal tt,
        World (license w) (licenseState w) (workflowRepository w)
              (logger w ++ [LogEntry "info" msg fields]) (eventService w)).

Definition eventService_emit (name : string) (payload : list (string * jsval))
  : M unit :=
  λ w, (Normal tt,
        World (license w) (licenseState w) (workflowRepository w)
              (logger w) (eventService w ++ [Event name payload])).

(** [this.license.<name> = f] *)
Definition license_assign (name : string) (f : method) : M unit :=
  λ w, (Normal tt,
        World (<[name := f]> (license w)) (licenseState w)
              (workflowRepository w) (logger w) (eventService w)).

(** [this.licenseState.<name> = f] *)
Definition licenseState_assign (name : string) (f : method) : M unit :=
  λ w, (Normal tt,
        World (license w) (<[name := f]> (licenseState w))
              (workflowRepository w) (logger w) (eventService w)).

(** The closure [() => v]. *)
Definition konst (v : jsval) : method := λ _, v.

(** The assignments of [patchLicenseForEnterprise] to [this.license], in
    source order. *)
Definition license_overrides : list (string * method) :=
  [ ("getTriggerLimit", konst (VNum MAX_SAFE_INTEGER));
    ("getPlanName", konst (VStr "Enterprise"));
    ("isFeatureEnabled", konst (VBool true));
    ("hasValidLicense", konst (VBool true));
    ("isVariablesEnabled", konst (VBool true));
    ("getVariablesLimit", konst (VNum MAX_SAFE_INTEGER));
    ("isAdvancedPermissionsEnabled", konst (VBool true));
    ("isSourceControlEnabled", konst (VBool true));
    ("isAuditLogsEnabled", konst (VBool true));
    ("isSsoEnabled", konst (VBool true));
    ("isLogStreamingEnabled", konst (VBool true));
    ("isApiDisabled", konst (VBool false));
    ("isWorkflowHistoryEnabled", konst (VBool true));
    ("isDebugInEditorEnabled", konst (VBool true));
    ("isBinaryDataS3Enabled", konst (VBool true));
    ("isMultipleMainInstancesEnabled", konst (VBool true));
    ("getMainPlan",
       konst (VObj [ ("productId", VStr "enterprise-unlimited");
                     ("productName", VStr "Enterprise Unlimited");
                     ("productMetadata", VObj []) ]));
    ("getUsersLimit", konst (VNum MAX_SAFE_INTEGER));
    ("isWithinUsersLimit", konst (VBool true));
    ("getWorkflowLimit", konst (VNum MAX_SAFE_INTEGER));
    ("isWithinWorkflowLimit", konst (VBool true));
    ("getManagementJwt", konst (VStr "enterprise-bypass-token")) ].

(** The assignments of [patchLicenseForEnterprise] to [this.licenseState]. *)
Definition licenseState_overrides : list (string * method) :=
  [ ("getMaxWorkflowsWithEvaluations", konst (VNum MAX_SAFE_INTEGER));
    ("isFeatureEnabled", konst (VBool true)) ].

(** Run a list of assignments one after the other. *)
Fixpoint assign_all (assign : string → method → M unit)
    (l : list (string * method)) : M unit :=
  match l with
  | [] => mret tt
  | (name, f) :: rest => assign name f ;; assign_all assign rest
  end.

Definition patchLicenseForEnterprise : M unit :=
  assign_all license_assign license_overrides ;;
  assign_all licenseState_assign licenseState_overrides ;;
  logger_info "Enterprise features enabled via license override" None.

(** [new LicenseService(...)]: the constructor only stores the collaborators
    and installs the override. *)
Definition new_LicenseService : M unit := patchLicenseForEnterprise.

(** Calling a method of a collaborator object. *)
Definition call (o : gmap string method) (name : string) (args : list jsval)
  : option jsval :=
  (λ f, f args) <$> o !! name.

(** ** [getLicenseData] *)

Record usage_entry : Type := UsageEntry {
  value : Z;
  limit : Z;
  warningThreshold : option QArith_base.Q;
}.

Record usage_snapshot : Type := {
  activeWorkflowTriggers : usage_entry;
  workflowsHavingEvaluations : usage_entry;
  users : usage_entry;
  variables : usage_entry;
}.

Record license_summary : Type := {
  planId : string;
  planName : string;
  isValidLicense : bool;
  validConsumerId : string;
}.

Record license_data : Type := {
  usage : usage_snapshot;
  license_ : license_summary;
  features : list (string * bool);
}.

Definition threshold_0_8 : QArith_base.Q := QArith_base.Qmake 8 10.

Definition getLicenseData : M license_data :=
  λ w,
  (triggerCount ← await (getActiveTriggerCount (workflowRepository w));
   workflowsWithEvaluationsCount ←
     await (getWorkflowsWithEvaluationCount (workflowRepository w));
   mret {|
     usage := {|
       activeWorkflowTriggers :=
         UsageEntry triggerCount MAX_SAFE_INTEGER (Some threshold_0_8);
       workflowsHavingEvaluations :=
         UsageEntry workflowsWithEvaluationsCount MAX_SAFE_INTEGER None;
       users := UsageEntry 1 MAX_SAFE_INTEGER (Some threshold_0_8);
       variables := UsageEntry 0 MAX_SAFE_INTEGER (Some threshold_0_8);
     |};
     license_ := {|
       planId := "enterprise-unlimited";
       planName := "Enterprise";
       isValidLicense := true;
       validConsumerId := "enterprise-consumer";
     |};
     features :=
       [ ("variables", true); ("advancedPermissions", true);
         ("sourceControl", true); ("auditLogs", true); ("sso", true);
         ("logStreaming", true); ("workflowHistory", true);
         ("debugInEditor", true); ("binaryDataS3", true);
         ("multipleMainInstances", true) ];
   |}) w.

(** ** Lifecycle operations *)

Record User : Type := {
  user_email : string;
  user_firstName : string;
  user_lastName : string;
}.

Definition requestEnterpriseTrial (user : User) : M unit :=
  logger_info "Enterprise trial requested (bypassed)"
    (Some [ ("email", VStr (user_email user));
            ("firstName", VStr (user_firstName user));
            ("lastName", VStr (user_lastName user)) ]).

Record registration : Type := {
  userId : string;
  email : string;
  instanceId : string;
  instanceUrl : string;
  licenseType : string;
}.

Record notice : Type := { title : string; text : string }.

Definition registerCommunityEdition (r : registration) : M notice :=
  logger_info "Community edition registration (bypassed)"
    (Some [ ("userId", VStr (userId r)); ("email", VStr (email r));
            ("instanceId", VStr (instanceId r));
            ("licenseType", VStr (licenseType r)) ]) ;;
  eventService_emit "license-community-plus-registered"
    [ ("userId", VStr (userId r)); ("email", VStr (email r));
      ("licenseKey", VStr "enterprise-bypass-key") ] ;;
  mret {| title := "Enterprise Features Enabled";
         text := "All enterprise features have been enabled for this instance." |}.

Definition getManagementJwt : string := "enterprise-bypass-token".

Definition activateLicense (activationKey : string) : M unit :=
  logger_info "License activation bypassed"
    (Some [ ("activationKey", VStr "***hidden***") ]) ;;
  eventService_emit "license-activated"
    [ ("activationKey", VStr "enterprise-bypass-key");
      ("planName", VStr "Enterprise") ].

Definition renewLicense : M unit :=
  logger_info "License renewal bypassed" None ;;
  eventService_emit "license-renewal-attempted" [ ("success", VBool true) ].

Definition isEnterpriseEnabled : bool := true.

(** Each feature with its [enabled] flag and, for variables, its [limit]. *)
Definition getEnterpriseFeaturesStatus : list (string * (bool * option Z)) :=
  [ ("variables", (true, Some MAX_SAFE_INTEGER));
    ("advancedPermissions", (true, None));
    ("sourceControl", (true, None));
    ("auditLogs", (true, None));
    ("sso", (true, None));
    ("logStreaming", (true, None));
    ("workflowHistory", (true, None));
    ("debugInEditor", (true, None));
    ("binaryDataS3", (true, None));
    ("multipleMainInstances", (true, None)) ].

Definition checkFeatureAvailability (feature : string) : M bool := mret true.

(** Modelled from the spec: the instance's current consumption of the four
    resources of the usage snapshot (workflow triggers, workflows with
    evaluations, users, variables).  The first two are what the workflow
    repository's counting queries answer; the numbers of users and of
    variables are held by repositories that are not under src/ and that
    [LicenseService] is not given. *)
Record consumption : Type := {
  active_triggers : Z;
  evaluation_workflows : Z;
  user_count : Z;
  variable_count : Z;
}.

(** The workflow repository of an instance with consumption [c]. *)
Definition repository_of (c : consumption) : WorkflowRepository := {|
  getActiveTriggerCount := Normal (active_triggers c);
  getWorkflowsWithEvaluationCount := Normal (evaluation_workflows c);
|}.

(** Every [value] field of the snapshot is the current consumption. *)
Definition reports_consumption (c : consumption) (u : usage_snapshot) : Prop :=
  value (activeWorkflowTriggers u) = active_triggers c
  ∧ value (workflowsHavingEvaluations u) = evaluation_workflows c
  ∧ value (users u) = user_count c
  ∧ value (variables u) = variable_count c.

(** Every [limit] field of the snapshot is [Number.MAX_SAFE_INTEGER]. *)
Definition unlimited (u : usage_snapshot) : Prop :=
  limit (activeWorkflowTriggers u) = MAX_SAFE_INTEGER
  ∧ limit (workflowsHavingEvaluations u) = MAX_SAFE_INTEGER
  ∧ limit (users u) = MAX_SAFE_INTEGER
  ∧ limit (variables u) = MAX_SAFE_INTEGER.

(** Reading of a table of installed closures as "always [true], or the
    numeric sentinel": every boolean a closure returns is [true] and every
    number is [Number.MAX_SAFE_INTEGER]. *)
Definition boolean_entries_true_numeric_unlimited
    (l : list (string * method)) : Prop :=
  Forall (λ nf, ∀ args,
            match nf.2 args with
            | VBool b => b = true
            | VNum n => n = MAX_SAFE_INTEGER
            | _ => True
            end) l.

(** The patched getters that answer a limit. *)
Definition limit_getters : list string :=
  [ "getTriggerLimit"; "getVariablesLimit"; "getUsersLimit";
    "getWorkflowLimit"; "getMaxWorkflowsWithEvaluations" ].

(** The patched getters that answer a boolean. *)
Definition boolean_getters : list string :=
  [ "isFeatureEnabled"; "hasValidLicense"; "isVariablesEnabled";
    "isAdvancedPermissionsEnabled"; "isSourceControlEnabled";
    "isAuditLogsEnabled"; "isSsoEnabled"; "isLogStreamingEnabled";
    "isApiDisabled"; "isWorkflowHistoryEnabled"; "isDebugInEditorEnabled";
    "isBinaryDataS3Enabled"; "isMultipleMainInstancesEnabled";
    "isWithinUsersLimit"; "isWithinWorkflowLimit" ].

(** The value the override forces under [name]: [false] for the one getter
    of negative polarity, [isApiDisabled]; [Number.MAX_SAFE_INTEGER] for a
    limit getter; the fixed plan name, token and plan record for
    [getPlanName], [getManagementJwt] and [getMainPlan]; [true] for every
    other name. *)
Definition forced_value (name : string) : jsval :=
  if String.eqb name "isApiDisabled" then VBool false
  else if existsb (String.eqb name) limit_getters
  then VNum MAX_SAFE_INTEGER
  else if String.eqb name "getPlanName" then VStr "Enterprise"
  else if String.eqb name "getManagementJwt"
  then VStr "enterprise-bypass-token"
  else if String.eqb name "getMainPlan"
  then VObj [ ("productId", VStr "enterprise-unlimited");
              ("productName", VStr "Enterprise Unlimited");
              ("productMetadata", VObj []) ]
  else VBool true.

(** What the closure installed under [name] returns is the value forced
    under that name, and no other. *)
Definition forced_entry (name : string) (v : jsval) : Prop :=
  v = forced_value name.

(** The events a run added to the bus. *)
Definition emitted (w w' : world) (evs : list event) : Prop :=
  eventService w' = (eventService w ++ evs)%list.

(** The lines a run added to the log. *)
Definition logged (w w' : world) (entries : list log_entry) : Prop :=
  logger w' = (logger w ++ entries)%list.

(** ** The error mapping of the original activation and renewal paths *)

(** [logger.error(message, fields)] *)
Definition logger_error (msg : string) (fields : option (list (string * jsval)))
  : M unit :=
  λ w, (Normal tt,
        World (license w) (licenseState w) (workflowRepository w)
              (logger w ++ [LogEntry "error" msg fields]) (eventService w)).

(** [keyof typeof LicenseErrors] *)
Inductive LicenseErrorId : Type :=
| SCHEMA_VALIDATION
| RESERVATION_EXHAUSTED
| RESERVATION_EXPIRED
| NOT_FOUND
| RESERVATION_CONFLICT
| RESERVATION_DUPLICATE.

Definition LicenseErrors (id : LicenseErrorId) : string :=
  match id with
  | SCHEMA_VALIDATION => "Activation key is in the wrong format"
  | RESERVATION_EXHAUSTED => "Activation key has been used too many times"
  | RESERVATION_EXPIRED => "Activation key has expired"
  | NOT_FOUND => "Activation key not found"
  | RESERVATION_CONFLICT => "Activation key not found"
  | RESERVATION_DUPLICATE =>
      "Activation key has already been used on this instance"
  end.

(** [Error & { errorId?: ... }] *)
Record LicenseError : Type := {
  errorId : option LicenseErrorId;
  error_message : string;
  error_stack : option string;
}.

(** ['activate' | 'renew'] *)
Inductive license_action : Type := activate | renew.

Definition action_name (a : license_action) : string :=
  match a with
  | activate => "activate"
  | renew => "renew"
  end.

Definition mapErrorMessage (error : LicenseError) (action : license_action)
  : M string :=
  let message := LicenseErrors <$> errorId error in
  match message with
  | Some m =>
      if negb (String.eqb m "") then mret m
      else
        let m' := "Failed to " +:+ action_name action +:+ " license: "
                  +:+ error_message error in
        logger_error m'
          (Some [ ("stack", VStr (default "n/a" (error_stack error))) ]);;
        mret m'
  | None =>
      let m' := "Failed to " +:+ action_name action +:+ " license: "
                +:+ error_message error in
      logger_error m'
        (Some [ ("stack", VStr (default "n/a" (error_stack error))) ]);;
      mret m'
  end.

(** ** The service as a transition system

    One request per public method, and the construction of a further
    service instance on the same collaborators. *)
Inductive request : Type :=
| NewService
| GetLicenseData
| RequestEnterpriseTrial (user : User)
| RegisterCommunityEdition (r : registration)
| ActivateLicense (activationKey : string)
| RenewLicense
| CheckFeatureAvailability (feature : string).

(** The collaborators after a request, whether it returned or threw. *)
Definition serve (w : world) (q : request) : world :=
  match q with
  | NewService => (new_LicenseService w).2
  | GetLicenseData => (getLicenseData w).2
  | RequestEnterpriseTrial u => (requestEnterpriseTrial u w).2
  | RegisterCommunityEdition r => (registerCommunityEdition r w).2
  | ActivateLicense k => (activateLicense k w).2
  | RenewLicense => (renewLicense w).2
  | CheckFeatureAvailability f => (checkFeatureAvailability f w).2
  end.

(** Every closure of the table [l] is installed in [o]. *)
Definition installed (l : list (string * method)) (o : gmap string method)
  : Prop :=
  Forall (λ nf, ∀ args, call o nf.1 args = Some (nf.2 args)) l.

(** Two registrations that differ at most in [instanceUrl]. *)
Definition same_but_instanceUrl (r1 r2 : registration) : Prop :=
  userId r1 = userId r2 ∧ email r1 = email r2
  ∧ instanceId r1 = instanceId r2 ∧ licenseType r1 = licenseType r2.

End LicenseService.

(* ===================================================================== *)
(** * Front end: the settings store (settings.store.ts)                   *)
(* ===================================================================== *)

Module SettingsStore.

(** ** JavaScript values and the object heap

    Objects are shared by reference: the payload handed to [setSettings] is
    the very object the store keeps in [settings.value], and a property
    write through one alias is seen through every other. *)

Definition loc : Type := nat.

Inductive value : Type :=
| VUndef
| VNull
| VBool (b : bool)
| VNum (n : Z)
| VStr (s : string)
| VRef (l : loc).

#[global] Instance value_eq_dec : EqDecision value.
Proof. solve_decision. Defined.

(** What a [throw] / a rejected promise carries: a [TypeError] of the
    language, an [Error] thrown by a library, or the reason of a
    rejection. *)
Inductive error : Type :=
| TypeError
| Error (message : string)
| Rejected (reason : value).

(** [ToBoolean]. *)
Definition truthy (v : value) : bool :=
  match v with
  | VUndef | VNull => false
  | VBool b => b
  | VNum n => negb (Z.eqb n 0)
  | VStr s => negb (String.eqb s "")
  | VRef _ => true
  end.

Definition nullish (v : value) : bool :=
  match v with
  | VUndef | VNull => true
  | _ => false
  end.

(** The page the store runs in, as far as [setSettings] looks at it, and the
    imported constant [INSECURE_CONNECTION_WARNING].  [browser_name] is the
    [browser.name] that Bowser derives from a user agent that is not
    empty. *)
Record browser_env : Type := {
  location_protocol : string;
  location_hostname : string;
  navigator_userAgent : string;
  browser_name : string;
  INSECURE_CONNECTION_WARNING : string;
}.

(** A call the store makes on a collaborator ([useRootStore()], [document],
    the REST client, the toast composable, ...), recorded in order. *)
Record outcall : Type := Call {
  call_target : string;
  call_method : string;
  call_args : list value;
}.

(** The refs created by the store's setup function, the heap their objects
    live in, and the calls made so far. *)
Record store : Type := Store {
  heap : list (gmap string value);
  initialized : bool;
  settings : value;
  moduleSettings : value;
  userManagement : value;
  templatesEndpointHealthy : bool;
  api : value;
  mfa : value;
  folders : value;
  saveDataErrorExecution : value;
  saveDataSuccessExecution : value;
  saveManualExecutions : value;
  saveDataProgressExecution : value;
  outside : list outcall;
  env : browser_env;
}.

Definition set_heap (h : list (gmap string value)) (s : store) : store :=
  Store h (initialized s) (settings s) (moduleSettings s) (userManagement s)
    (templatesEndpointHealthy s) (api s) (mfa s) (folders s)
    (saveDataErrorExecution s) (saveDataSuccessExecution s)
    (saveManualExecutions s) (saveDataProgressExecution s) (outside s) (env s).

Definition set_initialized (b : bool) (s : store) : store :=
  Store (heap s) b (settings s) (moduleSettings s) (userManagement s)
    (templatesEndpointHealthy s) (api s) (mfa s) (folders s)
    (saveDataErrorExecution s) (saveDataSuccessExecution s)
    (saveManualExecutions s) (saveDataProgressExecution s) (outside s) (env s).

Definition set_settings (v : value) (s : store) : store :=
  Store (heap s) (initialized s) v (moduleSettings s) (userManagement s)
    (templatesEndpointHealthy s) (api s) (mfa s) (folders s)
    (saveDataErrorExecution s) (saveDataSuccessExecution s)
    (saveManualExecutions s) (saveDataProgressExecution s) (outside s) (env s).

Definition set_moduleSettings (v : value) (s : store) : store :=
  Store (heap s) (initialized s) (settings s) v (userManagement s)
    (templatesEndpointHealthy s) (api s) (mfa s) (folders s)
    (saveDataErrorExecution s) (saveDataSuccessExecution s)
    (saveManualExecutions s) (saveDataProgressExecution s) (outside s) (env s).

Definition set_userManagement (v : value) (s : store) : store :=
  Store (heap s) (initialized s) (settings s) (moduleSettings s) v
    (templatesEndpointHealthy s) (api s) (mfa s) (folders s)
    (saveDataErrorExecution s) (saveDataSuccessExecution s)
    (saveManualExecutions s) (saveDataProgressExecution s) (outside s) (env s).

Definition set_templatesEndpointHealthy (b : bool) (s : store) : store :=
  Store (heap s) (initialized s) (settings s) (moduleSettings s)
    (userManagement s) b (api s) (mfa s) (folders s)
    (saveDataErrorExecution s) (saveDataSuccessExecution s)
    (saveManualExecutions s) (saveDataProgressExecution s) (outside s) (env s).

Definition set_api (v : value) (s : store) : store :=
  Store (heap s) (initialized s) (settings s) (moduleSettings s)
    (userManagement s) (templatesEndpointHealthy s) v (mfa s) (folders s)
    (saveDataErrorExecution s) (saveDataSuccessExecution s)
    (saveManualExecutions s) (saveDataProgressExecution s) (outside s) (env s).

Definition set_saveDataErrorExecution (v : value) (s : store) : store :=
  Store (heap s) (initialized s) (settings s) (moduleSettings s)
    (userManagement s) (templatesEndpointHealthy s) (api s) (mfa s) (folders s)
    v (saveDataSuccessExecution s)
    (saveManualExecutions s) (saveDataProgressExecution s) (outside s) (env s).

Definition set_saveDataSuccessExecution (v : value) (s : store) : store :=
  Store (heap s) (initialized s) (settings s) (moduleSettings s)
    (userManagement s) (templatesEndpointHealthy s) (api s) (mfa s) (folders s)
    (saveDataErrorExecution s) v
    (saveManualExecutions s) (saveDataProgressExecution s) (outside s) (env s).

Definition set_saveManualExecutions (v : value) (s : store) : store :=
  Store (heap s) (initialized s) (settings s) (moduleSettings s)
    (userManagement s) (templatesEndpointHealthy s) (api s) (mfa s) (folders s)
    (saveDataErrorExecution s) (saveDataSuccessExecution s)
    v (saveDataProgressExecution s) (outside s) (env s).

Definition set_saveDataProgressExecution (v : value) (s : store) : store :=
  Store (heap s) (initialized s) (settings s) (moduleSettings s)
    (userManagement s) (templatesEndpointHealthy s) (api s) (mfa s) (folders s)
    (saveDataErrorExecution s) (saveDataSuccessExecution s)
    (saveManualExecutions s) v (outside s) (env s).

Definition set_outside (o : list outcall) (s : store) : store :=
  Store (heap s) (initialized s) (settings s) (moduleSettings s)
    (userManagement s) (templatesEndpointHealthy s) (api s) (mfa s) (folders s)
    (saveDataErrorExecution s) (saveDataSuccessExecution s)
    (saveManualExecutions s) (saveDataProgressExecution s) o (env s).

(** ** The monad of store code: state, and exceptions that leave the state
    reached so far in place. *)

Definition M (A : Type) : Type := store → completion error A * store.

#[global] Instance M_ret : MRet M := λ A a s, (Normal a, s).

#[global] Instance M_bind : MBind M := λ A B k m s,
  match m s with
  | (Normal a, s') => k a s'
  | (Throw e, s') => (Throw e, s')
  end.

Definition throw {A} (e : error) : M A := λ s, (Throw e, s).

(** [try { m } catch (e) { h e }] *)
Definition try_catch {A} (m : M A) (h : error → M A) : M A :=
  λ s, match m s with
       | (Normal a, s') => (Normal a, s')
       | (Throw e, s') => h e s'
       end.

Definition get_store : M store := λ s, (Normal s, s).

Definition modify (f : store → store) : M unit := λ s, (Normal tt, f s).

(** [await q] for a promise of the outside world that settles with [q]. *)
Definition await {A} (q : completion error A) : M A := λ s, (q, s).

Definition when (b : bool) (m : M unit) : M unit := if b then m else mret tt.


(** [o.k]: a [TypeError] on [undefined] and [null]; [undefined] for a
    property the object does not have and for (wrapped) primitives, whose
    built-in properties are not modelled. *)
Definition get_prop (v : value) (k : string) : M value :=
  λ s, match v with
       | VUndef | VNull => (Throw TypeError, s)
       | VRef l =>
           match heap s !! l with
           | Some o => (Normal (default VUndef (o !! k)), s)
           | None => (Throw TypeError, s)
           end
       | _ => (Normal VUndef, s)
       end.

(** [o?.k] *)
Definition get_opt (v : value) (k : string) : M value :=
  if nullish v then mret VUndef else get_prop v k.

(** [o.k = x]; module code is strict, so writing a property of a primitive
    throws as well. *)
Definition set_prop (v : value) (k : string) (x : value) : M unit :=
  λ s, match v with
       | VRef l =>
           match heap s !! l with
           | Some o => (Normal tt, set_heap (<[l := <[k := x]> o]> (heap s)) s)
           | None => (Throw TypeError, s)
           end
       | _ => (Throw TypeError, s)
       end.

(** A new object with the given own properties. *)
Definition alloc (o : gmap string value) : M value :=
  λ s, (Normal (VRef (length (heap s))), set_heap (heap s ++ [o]) s).

(** The characters of a string as index-keyed properties, from index [i]. *)
Fixpoint string_props (i : nat) (str : string) : gmap string value :=
  match str with
  | EmptyString => ∅
  | String c rest =>
      <[pretty i := VStr (String c EmptyString)]> (string_props (S i) rest)
  end.

(** The own enumerable properties copied by [{ ...v }]. *)
Definition spread (v : value) : M (gmap string value) :=
  λ s, match v with
       | VRef l =>
           match heap s !! l with
           | Some o => (Normal o, s)
           | None => (Throw TypeError, s)
           end
       | VStr str => (Normal (string_props 0 str), s)
       | _ => (Normal ∅, s)
       end.

(** The properties written after a spread in an object literal, in order. *)
Definition with_props (o : gmap string value) (l : list (string * value))
  : gmap string value :=
  assign_props o l.

Definition outcall_ (target method : string) (args : list value) : M unit :=
  modify (λ s, set_outside (outside s ++ [Call target method args]) s).

Definition read {A} (f : store → A) : M A := λ s, (Normal (f s), s).

(** ** The store's setup: the refs and their initial objects *)

Definition initial_heap : list (gmap string value) :=
  [ (* 0: settings *) ∅;
    (* 1: userManagement; the method is
          [UserManagementAuthenticationMethod.Email] *)
    {[ "quota" := VNum (-1); "showSetupOnFirstLoad" := VBool false;
       "smtpSetup" := VBool false; "authenticationMethod" := VStr "email" ]};
    (* 2: api.swaggerUi *)
    {[ "enabled" := VBool false ]};
    (* 3: api *)
    {[ "enabled" := VBool false; "latestVersion" := VNum 0;
       "path" := VStr "/"; "swaggerUi" := VRef 2%nat ]};
    (* 4: mfa *)
    {[ "enabled" := VBool false ]};
    (* 5: folders *)
    {[ "enabled" := VBool false ]};
    (* 6: moduleSettings *)
    ∅ ].

Definition useSettingsStore (e : browser_env) : store := {|
  heap := initial_heap;
  initialized := false;
  settings := VRef 0%nat;
  moduleSettings := VRef 6%nat;
  userManagement := VRef 1%nat;
  templatesEndpointHealthy := false;
  api := VRef 3%nat;
  mfa := VRef 4%nat;
  folders := VRef 5%nat;
  saveDataErrorExecution := VStr "all";
  saveDataSuccessExecution := VStr "all";
  saveManualExecutions := VBool false;
  saveDataProgressExecution := VBool false;
  outside := [];
  env := e;
|}.

(** ** Computed values *)

Definition planName (s : store) : string := "Enterprise".

(** [computed(() => () => true)]: the getter yields a function that ignores
    its arguments. *)
Definition isEnterpriseFeatureEnabled (s : store) : list value → bool :=
  λ _, true.

Definition isTemplatesEndpointReachable (s : store) : bool :=
  templatesEndpointHealthy s.

Definition templatesHost : M value :=
  sv ← read settings;
  t ← get_prop sv "templates";
  get_opt t "host".

Definition isWorkerViewAvailable (s : store) : bool := true.
Definition isCommunityPlan (s : store) : bool := false.

Definition isVariablesEnabled (s : store) : bool := true.
Definition canCreateVariables (s : store) : bool := true.
Definition isAdvancedPermissionsEnabled (s : store) : bool := true.
Definition isSourceControlEnabled (s : store) : bool := true.
Definition isAuditLogsEnabled (s : store) : bool := true.
Definition isSsoEnabled (s : store) : bool := true.
Definition isLogStreamingEnabled (s : store) : bool := true.
Definition isWorkflowHistoryEnabled (s : store) : bool := true.
Definition isDebugInEditorEnabled (s : store) : bool := true.
Definition isBinaryDataS3Enabled (s : store) : bool := true.
Definition isMultipleMainInstancesEnabled (s : store) : bool := true.
Definition isAdvancedExecutionFiltersEnabled (s : store) : bool := true.
Definition isLdapEnabled (s : store) : bool := true.
Definition isSamlEnabled (s : store) : bool := true.
Definition isExternalSecretsEnabled (s : store) : bool := true.
Definition isWorkflowSharingEnabled (s : store) : bool := true.
Definition isProjectsEnabled (s : store) : bool := true.
Definition isRbacEnabled (s : store) : bool := true.

Record license_information : Type := {
  li_planName : string;
  li_isValidLicense : bool;
  li_validConsumerId : string;
  li_features : list (string * bool);
  li_usage : list (string * Z);
}.

Definition licenseInformation (s : store) : license_information := {|
  li_planName := "Enterprise";
  li_isValidLicense := true;
  li_validConsumerId := "enterprise-consumer";
  li_features :=
    [ ("variables", true); ("advancedPermissions", true);
      ("sourceControl", true); ("auditLogs", true); ("sso", true);
      ("logStreaming", true); ("workflowHistory", true);
      ("debugInEditor", true); ("binaryDataS3", true);
      ("multipleMainInstances", true); ("advancedExecutionFilters", true);
      ("ldap", true); ("saml", true); ("externalSecrets", true);
      ("workflowSharing", true); ("projects", true); ("rbac", true) ];
  li_usage :=
    [ ("activeWorkflowTriggers", MAX_SAFE_INTEGER);
      ("users", MAX_SAFE_INTEGER);
      ("variables", MAX_SAFE_INTEGER);
      ("workflowsHavingEvaluations", MAX_SAFE_INTEGER) ];
|}.

Definition hasFeature (featureName : string) : bool := true.
Definition isFeatureEnabled (featureName : string) : bool := true.
Definition getFeatureFlag (flagName : string) : bool := true.

(** The feature keys of the store and the getter that answers for each. *)
Inductive feature_key : Type :=
| variables | advancedPermissions | sourceControl | auditLogs | sso
| logStreaming | workflowHistory | debugInEditor | binaryDataS3
| multipleMainInstances | advancedExecutionFilters | ldap | saml
| externalSecrets | workflowSharing | projects | rbac | workerView.

Definition key_name (k : feature_key) : string :=
  match k with
  | variables => "variables"
  | advancedPermissions => "advancedPermissions"
  | sourceControl => "sourceControl"
  | auditLogs => "auditLogs"
  | sso => "sso"
  | logStreaming => "logStreaming"
  | workflowHistory => "workflowHistory"
  | debugInEditor => "debugInEditor"
  | binaryDataS3 => "binaryDataS3"
  | multipleMainInstances => "multipleMainInstances"
  | advancedExecutionFilters => "advancedExecutionFilters"
  | ldap => "ldap"
  | saml => "saml"
  | externalSecrets => "externalSecrets"
  | workflowSharing => "workflowSharing"
  | projects => "projects"
  | rbac => "rbac"
  | workerView => "workerView"
  end.

Definition enablement_getter (k : feature_key) : store → bool :=
  match k with
  | variables => isVariablesEnabled
  | advancedPermissions => isAdvancedPermissionsEnabled
  | sourceControl => isSourceControlEnabled
  | auditLogs => isAuditLogsEnabled
  | sso => isSsoEnabled
  | logStreaming => isLogStreamingEnabled
  | workflowHistory => isWorkflowHistoryEnabled
  | debugInEditor => isDebugInEditorEnabled
  | binaryDataS3 => isBinaryDataS3Enabled
  | multipleMainInstances => isMultipleMainInstancesEnabled
  | advancedExecutionFilters => isAdvancedExecutionFiltersEnabled
  | ldap => isLdapEnabled
  | saml => isSamlEnabled
  | externalSecrets => isExternalSecretsEnabled
  | workflowSharing => isWorkflowSharingEnabled
  | projects => isProjectsEnabled
  | rbac => isRbacEnabled
  | workerView => isWorkerViewAvailable
  end.

(** ** [setSettings] *)

(** The properties written over the spread of [settings.value.enterprise]. *)
Definition enterprise_overrides : list (string * value) :=
  [ ("variables", VBool true); ("advancedPermissions", VBool true);
    ("sourceControl", VBool true); ("auditLogs", VBool true);
    ("sso", VBool true); ("logStreaming", VBool true);
    ("workflowHistory", VBool true); ("debugInEditor", VBool true);
    ("binaryDataS3", VBool true); ("multipleMainInstances", VBool true);
    ("workerView", VBool true) ].

(** The properties written over the spread of [settings.value.license]. *)
Definition license_overrides : list (string * value) :=
  [ ("planName", VStr "Enterprise"); ("isValidLicense", VBool true);
    ("validConsumerId", VStr "enterprise-consumer") ].

(** [{ ...(v || {}) }] *)
Definition spread_or_empty (v : value) : M (gmap string value) :=
  if truthy v then spread v else mret ∅.

(** [Bowser.parse(navigator.userAgent).browser.name]: the parser of the
    library throws on a user agent that is empty. *)
Definition Bowser_parse (e : browser_env) : M string :=
  if String.eqb (navigator_userAgent e) ""
  then throw (Error "UserAgent parameter can't be empty")
  else mret (browser_name e).

Definition insecure_connection (e : browser_env) (browser : string) : bool :=
  String.eqb (location_protocol e) "http:"
  && (negb (String.eqb (location_hostname e) "localhost"
            || String.eqb (location_hostname e) "127.0.0.1")
      || String.eqb browser "Safari").

Definition setSettings (newSettings : value) : M unit :=
  modify (set_settings newSettings);;
  um ← get_prop newSettings "userManagement";
  modify (set_userManagement um);;
  um ← read userManagement;
  when (truthy um)
    (sv ← read settings;
     sum ← get_prop sv "userManagement";
     shown ← get_prop sum "showSetupOnFirstLoad";
     set_prop um "showSetupOnFirstLoad" (VBool (truthy shown)));;
  sv ← read settings;
  publicApi ← get_prop sv "publicApi";
  modify (set_api publicApi);;
  m ← read mfa;
  sv ← read settings;
  smfa ← get_prop sv "mfa";
  enabled ← get_opt smfa "enabled";
  set_prop m "enabled" enabled;;
  f ← read folders;
  sv ← read settings;
  sfolders ← get_prop sv "folders";
  enabled ← get_opt sfolders "enabled";
  set_prop f "enabled" enabled;;
  sv ← read settings;
  when (truthy sv)
    (ent ← get_prop sv "enterprise";
     props ← spread_or_empty ent;
     patched ← alloc (with_props props enterprise_overrides);
     set_prop sv "enterprise" patched;;
     lic ← get_prop sv "license";
     props ← spread_or_empty lic;
     patched ← alloc (with_props props license_overrides);
     set_prop sv "license" patched);;
  sv ← read settings;
  versionCli ← get_prop sv "versionCli";
  when (truthy versionCli)
    (outcall_ "rootStore" "setVersionCli" [versionCli]);;
  authCookie ← get_prop sv "authCookie";
  secure ← get_opt authCookie "secure";
  when (truthy secure)
    (e ← read env;
     browser ← Bowser_parse e;
     when (insecure_connection e browser)
       (outcall_ "document" "write" [VStr (INSECURE_CONNECTION_WARNING e)])).

(** ** The other actions of the store *)

Definition setAllowedModules (allowedModules : value) : M unit :=
  sv ← read settings;
  set_prop sv "allowedModules" allowedModules.

Definition setSaveDataErrorExecution (newValue : value) : M unit :=
  modify (set_saveDataErrorExecution newValue).

Definition setSaveDataSuccessExecution (newValue : value) : M unit :=
  modify (set_saveDataSuccessExecution newValue).

Definition setSaveManualExecutions (newValue : value) : M unit :=
  modify (set_saveManualExecutions newValue).

Definition setSaveDataProgressExecution (newValue : value) : M unit :=
  modify (set_saveDataProgressExecution newValue).

(** [rootStore.<setter>(fetchedSettings.<prop>)] for each pair, in order. *)
Fixpoint forward_all (fetchedSettings : value) (l : list (string * string))
  : M unit :=
  match l with
  | [] => mret tt
  | (setter, prop) :: rest =>
      x ← get_prop fetchedSettings prop;
      outcall_ "rootStore" setter [x];;
      forward_all fetchedSettings rest
  end.

Definition rootStore_setters_1 : list (string * string) :=
  [ ("setUrlBaseWebhook", "urlBaseWebhook");
    ("setUrlBaseEditor", "urlBaseEditor");
    ("setEndpointForm", "endpointForm");
    ("setEndpointFormTest", "endpointFormTest");
    ("setEndpointFormWaiting", "endpointFormWaiting");
    ("setEndpointWebhook", "endpointWebhook");
    ("setEndpointWebhookTest", "endpointWebhookTest");
    ("setEndpointWebhookWaiting", "endpointWebhookWaiting");
    ("setTimezone", "timezone");
    ("setExecutionTimeout", "executionTimeout");
    ("setMaxExecutionTimeout", "maxExecutionTimeout");
    ("setInstanceId", "instanceId");
    ("setOauthCallbackUrls", "oauthCallbackUrls") ].

Definition rootStore_setters_2 : list (string * string) :=
  [ ("setDefaultLocale", "defaultLocale");
    ("setBinaryDataMode", "binaryDataMode") ].

(** [response] is what the promise of [settingsApi.getSettings] settles
    with. *)
Definition getSettings (response : completion error value) : M unit :=
  outcall_ "settingsApi" "getSettings" [];;
  fetchedSettings ← await response;
  setSettings fetchedSettings;;
  sv ← read settings;
  x ← get_prop fetchedSettings "communityNodesEnabled";
  set_prop sv "communityNodesEnabled" x;;
  sv ← read settings;
  x ← get_prop fetchedSettings "unverifiedCommunityNodesEnabled";
  set_prop sv "unverifiedCommunityNodesEnabled" x;;
  x ← get_prop fetchedSettings "allowedModules";
  setAllowedModules x;;
  x ← get_prop fetchedSettings "saveDataErrorExecution";
  setSaveDataErrorExecution x;;
  x ← get_prop fetchedSettings "saveDataSuccessExecution";
  setSaveDataSuccessExecution x;;
  x ← get_prop fetchedSettings "saveExecutionProgress";
  setSaveDataProgressExecution x;;
  x ← get_prop fetchedSettings "saveManualExecutions";
  setSaveManualExecutions x;;
  forward_all fetchedSettings rootStore_setters_1;;
  x ← get_prop fetchedSettings "n8nMetadata";
  metadata ← (if truthy x then mret x else alloc ∅);
  outcall_ "rootStore" "setN8nMetadata" [metadata];;
  forward_all fetchedSettings rootStore_setters_2;;
  x ← get_prop fetchedSettings "versionNotifications";
  outcall_ "versionsStore" "setVersionNotificationSettings" [x];;
  telemetry ← get_prop fetchedSettings "telemetry";
  enabled ← get_opt telemetry "enabled";
  when (truthy enabled) (outcall_ "eventsApi" "sessionStarted" []).

Definition initialize (response : completion error value) : M unit :=
  done_ ← read initialized;
  if done_ : bool then mret tt
  else
    try_catch
      (getSettings response;;
       modify (set_initialized true))
      (λ e,
         outcall_ "toast" "showToast"
           [ VStr "startupError"; VStr "startupError.message";
             VStr "error"; VNum 0 ];;
         throw e).

Definition stopShowingSetupPage : M unit :=
  um ← read userManagement;
  set_prop um "showSetupOnFirstLoad" (VBool false).

Definition disableTemplates : M unit :=
  sv ← read settings;
  props ← spread sv;
  t ← get_prop sv "templates";
  tprops ← spread t;
  templates ← alloc (with_props tprops [ ("enabled", VBool false) ]);
  fresh_ ← alloc (with_props props [ ("templates", templates) ]);
  modify (set_settings fresh_).

(** [currentUserId] is [useUsersStore().currentUserId]; [response] is what
    the promise of [promptsApi.submitContactInfo] settles with. *)
Definition submitContactInfo (email : string) (currentUserId : value)
    (response : completion error value) : M value :=
  try_catch
    (sv ← read settings;
     instanceId ← get_prop sv "instanceId";
     outcall_ "promptsApi" "submitContactInfo"
       [ instanceId;
         if truthy currentUserId then currentUserId else VStr "";
         VStr email ];;
     await response)
    (λ _, mret VUndef).

(** What [testHealthEndpoint] does: it settles after [ms] milliseconds, or
    it never does. *)
Inductive probe_outcome : Type :=
| ProbeSettles (ms : nat) (r : completion error value)
| ProbeNever.

(** [Promise.race([probe, timeout])] with the timer that rejects (with no
    reason) after 2000 ms. *)
Definition race_with_timeout (probe : probe_outcome)
  : completion error value :=
  match probe with
  | ProbeSettles ms r =>
      if Nat.ltb ms 2000 then r else Throw (Rejected VUndef)
  | ProbeNever => Throw (Rejected VUndef)
  end.

Definition testTemplatesEndpoint (probe : probe_outcome) : M unit :=
  outcall_ "window" "setTimeout" [VNum 2000];;
  host ← templatesHost;
  outcall_ "templatesApi" "testHealthEndpoint" [host];;
  await (race_with_timeout probe);;
  modify (set_templatesEndpointHealthy true).

Definition getTimezones (response : completion error value) : M value :=
  outcall_ "restApi" "GET" [VStr "/options/timezones"];;
  await response.

Definition reset : M unit :=
  fresh_ ← alloc ∅;
  modify (set_settings fresh_).

Definition getModuleSettings (response : completion error value) : M unit :=
  outcall_ "moduleSettingsApi" "getModuleSettings" [];;
  fetched ← await response;
  modify (set_moduleSettings fetched).

(** ** The store as a transition system

    One transition per function the store returns to its users; the
    arguments carry what the outside world answers. *)
Inductive action : Type :=
| SetSettings (newSettings : value)
| GetSettings (response : completion error value)
| Initialize (response : completion error value)
| StopShowingSetupPage
| DisableTemplates
| SubmitContactInfo (email : string) (currentUserId : value)
    (response : completion error value)
| TestTemplatesEndpoint (probe : probe_outcome)
| GetTimezones (response : completion error value)
| Reset
| GetModuleSettings (response : completion error value)
| HasFeature (featureName : string)
| IsFeatureEnabled (featureName : string)
| GetFeatureFlag (flagName : string).

(** The state an action leaves behind, whether it returns or throws. *)
Definition run (a : action) (s : store) : store :=
  match a with
  | SetSettings v => (setSettings v s).2
  | GetSettings r => (getSettings r s).2
  | Initialize r => (initialize r s).2
  | StopShowingSetupPage => (stopShowingSetupPage s).2
  | DisableTemplates => (disableTemplates s).2
  | SubmitContactInfo e u r => (submitContactInfo e u r s).2
  | TestTemplatesEndpoint p => (testTemplatesEndpoint p s).2
  | GetTimezones r => (getTimezones r s).2
  | Reset => (reset s).2
  | GetModuleSettings r => (getModuleSettings r s).2
  | HasFeature _ | IsFeatureEnabled _ | GetFeatureFlag _ => s
  end.

(** One step of the system: an action of the store, or the outside world
    creating or changing objects (a response being parsed, a component
    writing to an object it holds).  The refs of the store are only assigned
    by the store's own actions. *)
Inductive step : store → store → Prop :=
| step_action (a : action) (s : store) : step s (run a s)
| step_outside (h : list (gmap string value)) (s : store) :
    step s (set_heap h s).

Inductive steps : store → store → Prop :=
| steps_refl (s : store) : steps s s
| steps_cons (s1 s2 s3 : store) : step s1 s2 → steps s2 s3 → steps s1 s3.

(** ** Assertions about store code *)

(** [m] leaves the health flag as it found it, whether it returns or
    throws. *)
Definition keeps_health {A} (m : M A) : Prop :=
  ∀ s, templatesEndpointHealthy (m s).2 = templatesEndpointHealthy s.

(** Total correctness: from a state satisfying [P], [m] returns normally, in
    a state and with a result satisfying [Q]. *)
Definition hoare {A} (P : store → Prop) (m : M A) (Q : A → store → Prop)
  : Prop :=
  ∀ s, P s → ∃ a s', m s = (Normal a, s') ∧ Q a s'.

(** Property [k] of the object at [l], if there is one. *)
Definition prop_of (s : store) (l : loc) (k : string) : option value :=
  heap s !! l ≫= (.!! k).

(** The object at [l], if there is one, is still there and answers [k] as
    before. *)
Definition same_prop (l : loc) (k : string) (s s' : store) : Prop :=
  (l < length (heap s))%nat →
  (l < length (heap s'))%nat ∧ prop_of s' l k = prop_of s l k.

(** The property names the store's actions assign to. *)
Definition written_keys : list string :=
  [ "showSetupOnFirstLoad"; "enabled"; "enterprise"; "license";
    "communityNodesEnabled"; "unverifiedCommunityNodesEnabled";
    "allowedModules" ].

(** The property names an action may assign to, on whatever object. *)
Definition footprint (a : action) : list string :=
  match a with
  | SetSettings _ =>
      [ "showSetupOnFirstLoad"; "enabled"; "enterprise"; "license" ]
  | GetSettings _ | Initialize _ => written_keys
  | StopShowingSetupPage => [ "showSetupOnFirstLoad" ]
  | _ => []
  end.

(** The property names [setSettings] assigns to. *)
Definition setSettings_writes : list string :=
  footprint (SetSettings VUndef).

(** Every object that was there in [s] is still there in [s'] and answers
    as before, but for the properties named [ks]. *)
Definition kept_but (ks : list string) (s s' : store) : Prop :=
  ∀ l k, k ∉ ks → same_prop l k s s'.

(** [b] holds what [{ ...(v || {}) }] copies from [v] in state [s], but for
    the properties named [ks]. *)
Definition copied_but (ks : list string) (s : store) (v : value)
    (b : gmap string value) : Prop :=
  ∃ b0, (spread_or_empty v s).1 = Normal b0
        ∧ ∀ k, k ∉ ks → b !! k = b0 !! k.

(** From a state satisfying [P], [m] ends, by returning or by throwing, with
    a completion and in a state that satisfy [Q]. *)
Definition ends {A} (P : store → Prop) (m : M A)
    (Q : completion error A → store → Prop) : Prop :=
  ∀ s, P s → Q (m s).1 (m s).2.

(** [v.k1.k2...] *)
Fixpoint read_path (v : value) (path : list string) : M value :=
  match path with
  | [] => mret v
  | k :: rest => x ← get_prop v k; read_path x rest
  end.

(** [v] is a reference to an object of the heap. *)
Definition is_object (h : list (gmap string value)) (v : value) : bool :=
  match v with
  | VRef l => bool_decide (l < length h)%nat
  | _ => false
  end.

(** [v] is not a reference to nowhere. *)
Definition live (h : list (gmap string value)) (v : value) : bool :=
  match v with
  | VRef l => bool_decide (l < length h)%nat
  | _ => true
  end.

(** The [mfa] and [folders] refs hold their objects. *)
Definition store_ok (s : store) : bool :=
  is_object (heap s) (mfa s) && is_object (heap s) (folders s).

(** The properties of the payload that [setSettings] dereferences. *)
Definition dereferenced : list string :=
  [ "mfa"; "folders"; "enterprise"; "license"; "authCookie" ].

(** [payload] is an object of the heap, as the type [FrontendSettings] has
    it: its [userManagement] is an object (or missing), and none of the
    properties [setSettings] dereferences points outside the heap. *)
Definition payload_ok (s : store) (payload : value) : bool :=
  match payload with
  | VRef p =>
      match heap s !! p with
      | Some o =>
          forallb (λ k, live (heap s) (default VUndef (o !! k))) dereferenced
          && (let um := default VUndef (o !! "userManagement") in
              is_object (heap s) um || negb (truthy um))
      | None => false
      end
  | _ => false
  end.

(** The properties of the payload that [setSettings] reads. *)
Definition payload_reads : list string :=
  [ "userManagement"; "publicApi"; "mfa"; "folders"; "enterprise";
    "license"; "versionCli"; "authCookie" ].

(** What holds from the third statement of [setSettings] up to the patch:
    the refs are set, the heap has only grown, the payload still answers
    every property [setSettings] reads as it did at the start, and no
    property has been written but those [setSettings] assigns to. *)
Definition ingesting_at (s0 : store) (p lm lf : loc)
    (o0 : gmap string value) (s : store) : Prop :=
  settings s = VRef p
  ∧ userManagement s = default VUndef (o0 !! "userManagement")
  ∧ mfa s = VRef lm ∧ folders s = VRef lf
  ∧ (length (heap s0) ≤ length (heap s))%nat
  ∧ (∃ o, heap s !! p = Some o ∧ ∀ k, k ∈ payload_reads → o !! k = o0 !! k)
  ∧ kept_but setSettings_writes s0 s.

(** What holds once the patch has run: the payload is still the object at
    [p], and its [enterprise] and [license] properties point to objects
    that were not there at the start and that carry the forced properties
    over a copy of what the payload had. *)
Definition patched_at (s0 : store) (p : loc) (o0 : gmap string value)
    (s : store) : Prop :=
  settings s = VRef p
  ∧ (length (heap s0) ≤ length (heap s))%nat
  ∧ ∃ o ne nl be bl,
      heap s !! p = Some o
      ∧ o !! "enterprise" = Some (VRef ne)
      ∧ heap s !! ne = Some (with_props be enterprise_overrides)
      ∧ o !! "license" = Some (VRef nl)
      ∧ heap s !! nl = Some (with_props bl license_overrides)
      ∧ o !! "versionCli" = o0 !! "versionCli"
      ∧ o !! "authCookie" = o0 !! "authCookie"
      ∧ (length (heap s0) ≤ ne)%nat ∧ (length (heap s0) ≤ nl)%nat
      ∧ copied_but setSettings_writes s0
          (default VUndef (o0 !! "enterprise")) be
      ∧ copied_but setSettings_writes s0
          (default VUndef (o0 !! "license")) bl
      ∧ kept_but setSettings_writes s0 s.


(** [payload.authCookie?.secure] is truthy. *)
Definition secure_cookie (s : store) (payload : value) : bool :=
  match (authCookie ← get_prop payload "authCookie";
         get_opt authCookie "secure") s with
  | (Normal secure, _) => truthy secure
  | (Throw _, _) => false
  end.

(** The one way [setSettings] fails on a payload it accepts: the cookie is
    marked secure and the user agent is empty, so that [Bowser.parse]
    throws. *)
Definition parser_refuses (s : store) (payload : value) : bool :=
  secure_cookie s payload && String.eqb (navigator_userAgent (env s)) "".

(** How [setSettings] ends on a payload it accepts. *)
Definition setSettings_outcome (s : store) (payload : value)
  : completion error unit :=
  if parser_refuses s payload
  then Throw (Error "UserAgent parameter can't be empty")
  else Normal tt.

(** A store that has just received a payload of the community edition:
    [enterprise.sso] is [false] and [license.planName] is "Community". *)
Definition community_payload_store : store :=
  set_heap
    (initial_heap ++
     [ (* 7: the payload *)
       {[ "enterprise" := VRef 8%nat; "license" := VRef 9%nat;
          "userManagement" := VRef 10%nat; "versionCli" := VStr "1.0.0" ]};
       (* 8: payload.enterprise *)
       {[ "sso" := VBool false; "ldap" := VBool false ]};
       (* 9: payload.license *)
       {[ "planName" := VStr "Community"; "consumerId" := VStr "unknown" ]};
       (* 10: payload.userManagement *)
       {[ "quota" := VNum (-1) ]} ])%list
    (useSettingsStore
       (Build_browser_env "https:" "n8n.example.org"
          "Mozilla/5.0 Firefox/128.0" "Firefox" "")).

(** The same store in a page without a user agent, after a payload whose
    cookie is marked secure. *)
Definition secure_payload_store : store :=
  set_heap
    (initial_heap ++
     [ (* 7: the payload *)
       {[ "enterprise" := VRef 8%nat; "authCookie" := VRef 9%nat ]};
       (* 8: payload.enterprise *)
       {[ "sso" := VBool false ]};
       (* 9: payload.authCookie *)
       {[ "secure" := VBool true ]} ])%list
    (useSettingsStore
       (Build_browser_env "https:" "n8n.example.org" "" "" "")).

(** A store whose settings have the templates enabled. *)
Definition templates_enabled_store : store :=
  set_settings (VRef 7%nat)
    (set_heap
       (initial_heap ++
        [ (* 7: the settings *)
          {[ "templates" := VRef 8%nat; "instanceId" := VStr "i-1" ]};
          (* 8: settings.templates *)
          {[ "enabled" := VBool true;
             "host" := VStr "https://api.n8n.io/api/" ]} ])%list
       (useSettingsStore (Build_browser_env "" "" "" "" ""))).

(** ** Further computed values

    Each one is a function of the current state; reading a property of
    [undefined] or [null] makes the getter throw. *)

(** [a ?? b] *)
Definition nullish_or (a b : value) : value := if nullish a then b else a.

(** [a || b] *)
Definition or_else (a b : value) : value := if truthy a then a else b.

(** [a === b] (no [NaN] among the modelled numbers) *)
Definition strict_eq (a b : value) : bool := bool_decide (a = b).

Definition isDocker : M value :=
  sv ← read settings;
  x ← get_opt sv "isDocker";
  mret (nullish_or x (VBool false)).

Definition consumerId : M value :=
  sv ← read settings;
  if nullish sv then mret VUndef
  else lic ← get_prop sv "license"; get_prop lic "consumerId".

(** [{ blockFileAccessToN8nFiles, secureCookie }] *)
Definition security : M (value * value) :=
  sv ← read settings;
  sec ← get_prop sv "security";
  blockFileAccess ← get_opt sec "blockFileAccessToN8nFiles";
  authCookie ← get_prop sv "authCookie";
  secure ← get_opt authCookie "secure";
  mret (nullish_or blockFileAccess (VBool true),
        nullish_or secure (VBool true)).

Definition concurrency : M value :=
  sv ← read settings; get_prop sv "concurrency".

Definition isConcurrencyEnabled : M bool :=
  c ← concurrency; mret (negb (strict_eq c (VNum (-1)))).

Definition isPublicApiEnabled : M value :=
  a ← read api; get_prop a "enabled".

Definition isSwaggerUIEnabled : M value :=
  a ← read api; sw ← get_prop a "swaggerUi"; get_prop sw "enabled".

Definition showSetupPage : M value :=
  um ← read userManagement; get_prop um "showSetupOnFirstLoad".

Definition deploymentType : M value :=
  sv ← read settings;
  d ← get_prop sv "deployment";
  t ← get_opt d "type";
  mret (or_else t (VStr "default")).

Definition isCloudDeployment : M bool :=
  sv ← read settings;
  d ← get_prop sv "deployment";
  t ← get_opt d "type";
  mret (strict_eq t (VStr "cloud")).

(** [useLocalStorage(key, initial).value], with the options left at their
    defaults.  [stored] is what local storage holds under [key], read back
    as a number; when nothing is stored the composable writes the initial
    value to the storage ([writeDefaults] is on) and yields it. *)
Definition useLocalStorage (key : string) (initial : Z)
    (stored : option value) : M value :=
  match stored with
  | Some v => mret v
  | None =>
      outcall_ "localStorage" "setItem" [VStr key; VStr (pretty initial)];;
      mret (VNum initial)
  end.

Definition partialExecutionVersion (stored : option value) : M value :=
  sv ← read settings;
  pe ← get_prop sv "partialExecution";
  v ← get_opt pe "version";
  let defaultVersion := nullish_or v (VNum 1) in
  userVersion ← useLocalStorage "PartialExecution.version" (-1) stored;
  let version :=
    if strict_eq userVersion (VNum (-1)) then defaultVersion
    else userVersion in
  if negb (strict_eq version (VNum 1) || strict_eq version (VNum 2))
  then mret (VNum 1)
  else mret version.

Definition isMfaFeatureEnabled : M value :=
  m ← read mfa; get_prop m "enabled".

Definition isFoldersFeatureEnabled : M value :=
  f ← read folders; get_prop f "enabled".

Definition areTagsEnabled : M bool :=
  sv ← read settings;
  x ← get_prop sv "workflowTagsDisabled";
  mret (if negb (strict_eq x VUndef) then negb (truthy x) else true).

(** [Boolean(t && t.enabled)] *)
Definition isTemplatesEnabled : M bool :=
  sv ← read settings;
  t ← get_prop sv "templates";
  if truthy t then
    enabled ← get_prop t "enabled"; mret (truthy enabled)
  else mret false.

Definition isQueueModeEnabled : M bool :=
  sv ← read settings;
  x ← get_prop sv "executionMode";
  mret (strict_eq x (VStr "queue")).

Definition isDevRelease : M bool :=
  sv ← read settings;
  x ← get_prop sv "releaseChannel";
  mret (strict_eq x (VStr "dev")).

(** [t && t.enabled] *)
Definition isTelemetryEnabled : M value :=
  sv ← read settings;
  t ← get_prop sv "telemetry";
  if truthy t then get_prop t "enabled" else mret t.

(** ** Relations between the state before and after a piece of store code *)

(** [m] takes every state to one related to it by [R], whether it returns
    or throws. *)
Definition respects {A} (R : store → store → Prop) (m : M A) : Prop :=
  ∀ s, R s (m s).2.

(** The refs that hold the store's own objects and the page are the same,
    and no object has left the heap. *)
Definition same_refs (s s' : store) : Prop :=
  mfa s' = mfa s ∧ folders s' = folders s ∧ env s' = env s
  ∧ (length (heap s) ≤ length (heap s'))%nat.

Definition same_initialized (s s' : store) : Prop :=
  initialized s' = initialized s.

Definition same_userManagement (s s' : store) : Prop :=
  userManagement s' = userManagement s.

(** [o] has none of the properties [ks]. *)
Definition lacks (o : gmap string value) (ks : list string) : Prop :=
  Forall (λ k, o !! k = None) ks.

(** The properties that decide the getters of a settings object that has
    just been created. *)
Definition optional_settings : list string :=
  [ "isDocker"; "license"; "security"; "authCookie"; "concurrency";
    "deployment"; "partialExecution"; "workflowTagsDisabled"; "templates" ].

(** The call that shows the start-up error. *)
Definition startup_toast : outcall :=
  Call "toast" "showToast"
    [ VStr "startupError"; VStr "startupError.message"; VStr "error";
      VNum 0 ].

(** The payload at [p] carries the forced values: its [enterprise] and
    [license] properties point to objects that answer every forced key with
    its forced value; [tel] is its [telemetry] property. *)
Definition forced_at (s0 : store) (p : loc) (tel : option value)
    (s : store) : Prop :=
  settings s = VRef p
  ∧ (length (heap s0) ≤ length (heap s))%nat
  ∧ ∃ o ne nl eo lo,
      heap s !! p = Some o
      ∧ o !! "enterprise" = Some (VRef ne)
      ∧ heap s !! ne = Some eo
      ∧ Forall (λ kv, eo !! kv.1 = Some kv.2) enterprise_overrides
      ∧ o !! "license" = Some (VRef nl)
      ∧ heap s !! nl = Some lo
      ∧ Forall (λ kv, lo !! kv.1 = Some kv.2) license_overrides
      ∧ o !! "telemetry" = tel.

(** The property names that carry the forced values. *)
Definition forced_keys : list string :=
  [ "enterprise"; "license"; "telemetry" ]
  ++ enterprise_overrides.*1 ++ license_overrides.*1.

(** A response of the settings endpoint: a payload that [setSettings]
    accepts and whose [telemetry] property does not point outside the
    heap. *)
Definition response_ok (s : store) (payload : value) : bool :=
  payload_ok s payload
  && match payload with
     | VRef p =>
         match heap s !! p with
         | Some o => live (heap s) (default VUndef (o !! "telemetry"))
         | None => false
         end
     | _ => false
     end.

(** [v] is an object of the heap, or [undefined] or [null]. *)
Definition object_or_nullish (h : list (gmap string value)) (v : value)
  : bool :=
  is_object h v || nullish v.

End SettingsStore.

(* ===================================================================== *)
(** * Properties                                                          *)
(* ===================================================================== *)

(** ** Sequences of property assignments *)

(** [distinct_names] decides that a list of names has no duplicates. *)
Lemma distinct_names_NoDup (l : list string) :
  distinct_names l = true → NoDup l.
Proof.
  induction l as [|x l IH]; simpl; [constructor|].
  intros [Hx Hl]%andb_prop. constructor; [|by apply IH].
  intros Hin. apply negb_true_iff in Hx.
  assert (existsb (String.eqb x) l = true) as Ht; [|congruence].
  apply existsb_exists. exists x.
  split; [by apply list_elem_of_In|apply String.eqb_refl].
Qed.

(** Later assignments win: the result is the map of the assignments, read
    from the last one, laid over the object. *)
Lemma assign_props_union {V} (l : list (string * V)) (o : gmap string V) :
  assign_props o l = list_to_map (reverse l) ∪ o.
Proof.
  revert o. induction l as [|[k v] l IH]; intros o.
  - unfold assign_props. simpl. by rewrite (left_id_L ∅ (∪)).
  - change (assign_props o ((k, v) :: l))
      with (assign_props (<[k := v]> o) l).
    rewrite IH, reverse_cons, list_to_map_app. simpl.
    rewrite insert_empty, <- (assoc_L (∪)).
    by rewrite <- insert_union_singleton_l.
Qed.

Lemma assign_props_lookup {V} (l : list (string * V)) (o : gmap string V) k v :
  (list_to_map (reverse l) : gmap string V) !! k = Some v →
  assign_props o l !! k = Some v.
Proof.
  intros H. rewrite assign_props_union. by apply lookup_union_Some_l.
Qed.


(** Assigning the same properties a second time changes nothing. *)
Lemma assign_props_idemp {V} (l : list (string * V)) (o : gmap string V) :
  assign_props (assign_props o l) l = assign_props o l.
Proof.
  rewrite !assign_props_union, (assoc_L (∪)).
  f_equal. apply (idemp_L (∪)).
Qed.

(** Membership in a list that is written out. *)
Ltac in_list :=
  repeat first [apply list_elem_of_here | apply list_elem_of_further].

(* ===================================================================== *)
(** ** The backend service *)

Section backend.
Import LicenseService.

Lemma assign_all_license (l : list (string * method)) (w : world) :
  assign_all license_assign l w
  = (Normal tt,
     World (assign_props (license w) l) (licenseState w)
           (workflowRepository w) (logger w) (eventService w)).
Proof.
  revert w. induction l as [|[k f] l IH]; intros w.
  - by destruct w.
  - simpl. unfold mbind, M_bind. simpl. by rewrite IH.
Qed.

Lemma assign_all_licenseState (l : list (string * method)) (w : world) :
  assign_all licenseState_assign l w
  = (Normal tt,
     World (license w) (assign_props (licenseState w) l)
           (workflowRepository w) (logger w) (eventService w)).
Proof.
  revert w. induction l as [|[k f] l IH]; intros w.
  - by destruct w.
  - simpl. unfold mbind, M_bind. simpl. by rewrite IH.
Qed.

(** What one installation of the override does to the collaborators. *)
Lemma patchLicenseForEnterprise_run (w : world) :
  patchLicenseForEnterprise w
  = (Normal tt,
     World (assign_props (license w) license_overrides)
           (assign_props (licenseState w) licenseState_overrides)
           (workflowRepository w)
           (logger w ++
              [LogEntry "info"
                 "Enterprise features enabled via license override" None])
           (eventService w)).
Proof.
  unfold patchLicenseForEnterprise, mbind, M_bind.
  rewrite assign_all_license, assign_all_licenseState. reflexivity.
Qed.


Lemma overrides_installed (m : gmap string method)
    (l : list (string * method)) :
  NoDup l.*1 →
  Forall (λ nf, ∀ args, call (assign_props m l) nf.1 args = Some (nf.2 args)) l.
Proof.
  intros Hnd. apply Forall_forall. intros [k f] Hin args. simpl.
  unfold call. erewrite assign_props_lookup; [reflexivity|].
  apply elem_of_list_to_map_1.
  - by rewrite fmap_reverse, reverse_Permutation.
  - by apply elem_of_reverse.
Qed.

Lemma license_overrides_NoDup : NoDup license_overrides.*1.
Proof. by apply distinct_names_NoDup. Qed.

Lemma licenseState_overrides_NoDup : NoDup licenseState_overrides.*1.
Proof. by apply distinct_names_NoDup. Qed.

(** C7, as stated, fails: [isApiDisabled] is a patched boolean getter and it
    is forced to [false]. *)
Lemma override_forces_isApiDisabled_false :
  ¬ boolean_entries_true_numeric_unlimited license_overrides.
Proof.
  intros H.
  eapply (Forall_lookup_1 _ _ 11%nat) in H; [|reflexivity].
  specialize (H []). discriminate H.
Qed.

(** What a getter answers once its closure has been installed. *)
Lemma installed_call (m : gmap string method) (l : list (string * method))
    (name : string) (v v' : jsval) (args : list jsval) :
  NoDup l.*1 → (name, konst v) ∈ l → v' = v →
  call (assign_props m l) name args = Some v'.
Proof.
  intros Hnd Hin ->.
  pose proof (overrides_installed m l Hnd) as H. rewrite Forall_forall in H.
  apply (H (name, konst v) Hin args).
Qed.

(** C7 (amended): every closure installed on the license and license-state
    objects returns the value forced under its name.  After the installer
    has run, on whatever collaborators and whatever the arguments: each
    boolean getter answers [true], except [isApiDisabled], which answers
    [false]; each limit getter answers [Number.MAX_SAFE_INTEGER];
    [getPlanName], [getManagementJwt] and [getMainPlan] answer their fixed
    string or record.  On the store every enablement getter and
    [canCreateVariables] is [true], [isCommunityPlan] is [false], [planName]
    is "Enterprise", and [licenseInformation] lists every feature as [true]
    and every limit as [Number.MAX_SAFE_INTEGER]. *)
Theorem override_forced_values :
  Forall (λ nf, ∀ args, forced_entry nf.1 (nf.2 args))
    (license_overrides ++ licenseState_overrides)
  ∧ (∀ (w : world) (args : list jsval),
       let w1 := (patchLicenseForEnterprise w).2 in
       Forall (λ name, call (license w1) name args
                       = Some (VBool (negb (String.eqb name "isApiDisabled"))))
         boolean_getters
       ∧ call (license w1) "isApiDisabled" args = Some (VBool false)
       ∧ call (licenseState w1) "isFeatureEnabled" args = Some (VBool true)
       ∧ Forall (λ name, call (license w1) name args
                         = Some (VNum MAX_SAFE_INTEGER))
           [ "getTriggerLimit"; "getVariablesLimit"; "getUsersLimit";
             "getWorkflowLimit" ]
       ∧ call (licenseState w1) "getMaxWorkflowsWithEvaluations" args
         = Some (VNum MAX_SAFE_INTEGER)
       ∧ call (license w1) "getPlanName" args = Some (VStr "Enterprise")
       ∧ call (license w1) "getManagementJwt" args
         = Some (VStr "enterprise-bypass-token")
       ∧ call (license w1) "getMainPlan" args
         = Some (VObj [ ("productId", VStr "enterprise-unlimited");
                        ("productName", VStr "Enterprise Unlimited");
                        ("productMetadata", VObj []) ]))
  ∧ ∀ s : SettingsStore.store,
      (∀ k, SettingsStore.enablement_getter k s = true)
      ∧ (∀ args, SettingsStore.isEnterpriseFeatureEnabled s args = true)
      ∧ SettingsStore.canCreateVariables s = true
      ∧ SettingsStore.isCommunityPlan s = false
      ∧ SettingsStore.planName s = "Enterprise"
      ∧ Forall (λ kv, kv.2 = true)
          (SettingsStore.li_features (SettingsStore.licenseInformation s))
      ∧ Forall (λ kv, kv.2 = MAX_SAFE_INTEGER)
          (SettingsStore.li_usage (SettingsStore.licenseInformation s)).
Proof.
  split; [|split].
  - unfold license_overrides, licenseState_overrides. simpl.
    repeat (apply Forall_cons_2; [intros args; reflexivity|]).
    apply Forall_nil_2.
  - intros w args. cbv zeta. rewrite patchLicenseForEnterprise_run.
    cbn [snd license licenseState].
    pose proof license_overrides_NoDup as Hl.
    pose proof licenseState_overrides_NoDup as Hs.
    unfold boolean_getters.
    repeat match goal with |- _ ∧ _ => split end;
      repeat (apply Forall_cons_2;
        [eapply installed_call;
          [exact Hl|unfold license_overrides; in_list|reflexivity]|]);
      try apply Forall_nil_2;
      first
        [ eapply installed_call;
          [exact Hl|unfold license_overrides; in_list|reflexivity]
        | eapply installed_call;
          [exact Hs|unfold licenseState_overrides; in_list|reflexivity] ].
  - intros s. split; [by intros []|].
    repeat split; simpl; repeat (apply Forall_cons_2; [reflexivity|]);
      apply Forall_nil_2.
Qed.

(** C8: installing the override (by the constructor, or by calling
    [patchLicenseForEnterprise]) is total, and a second installation on the
    same collaborators leaves the license and license-state objects as the
    first one left them: every patched getter answers with its forced value
    after one installation and after two, and the event bus and the
    repository are untouched.  (Each installation writes its info line to
    the log, see [patchLicenseForEnterprise_run].) *)
Theorem patchLicenseForEnterprise_idempotent (w : world) :
  ∃ w1 w2,
    new_LicenseService w = (Normal tt, w1)
    ∧ new_LicenseService w1 = (Normal tt, w2)
    ∧ patchLicenseForEnterprise w = (Normal tt, w1)
    ∧ patchLicenseForEnterprise w1 = (Normal tt, w2)
    ∧ license w2 = license w1
    ∧ licenseState w2 = licenseState w1
    ∧ workflowRepository w2 = workflowRepository w1
    ∧ eventService w2 = eventService w1
    ∧ Forall (λ nf, ∀ args,
                call (license w1) nf.1 args = Some (nf.2 args)
                ∧ call (license w2) nf.1 args = Some (nf.2 args))
        license_overrides
    ∧ Forall (λ nf, ∀ args,
                call (licenseState w1) nf.1 args = Some (nf.2 args)
                ∧ call (licenseState w2) nf.1 args = Some (nf.2 args))
        licenseState_overrides.
Proof.
  eexists _, _. split; [apply patchLicenseForEnterprise_run|].
  split; [apply patchLicenseForEnterprise_run|].
  split; [apply patchLicenseForEnterprise_run|].
  split; [apply patchLicenseForEnterprise_run|].
  cbn [license licenseState workflowRepository eventService].
  rewrite !assign_props_idemp.
  repeat split.
  - eapply Forall_impl;
      [apply (overrides_installed (license w)), license_overrides_NoDup|].
    intros nf H args. by split.
  - eapply Forall_impl;
      [apply (overrides_installed (licenseState w)),
         licenseState_overrides_NoDup|].
    intros nf H args. by split.
Qed.

(** C3: whatever the activation key or the registration data, each of the
    three lifecycle operations returns normally and adds exactly one event to
    the bus: 'license-activated', 'license-renewal-attempted' with
    [success: true], 'license-community-plus-registered'. *)
Theorem lifecycle_operations_succeed
    (activationKey : string) (r : registration) (w : world) :
  (∃ w', activateLicense activationKey w = (Normal tt, w')
         ∧ emitted w w'
             [ Event "license-activated"
                 [ ("activationKey", VStr "enterprise-bypass-key");
                   ("planName", VStr "Enterprise") ] ])
  ∧ (∃ w', renewLicense w = (Normal tt, w')
           ∧ emitted w w'
               [ Event "license-renewal-attempted"
                   [ ("success", VBool true) ] ])
  ∧ (∃ w', registerCommunityEdition r w
           = (Normal {| title := "Enterprise Features Enabled";
                        text := "All enterprise features have been enabled for this instance." |},
              w')
           ∧ emitted w w'
               [ Event "license-community-plus-registered"
                   [ ("userId", VStr (userId r)); ("email", VStr (email r));
                     ("licenseKey", VStr "enterprise-bypass-key") ] ]).
Proof.
  repeat split; repeat eexists; reflexivity.
Qed.

(** C9: the activation key does not flow into any output of
    [activateLicense]: result, log line (key shown as '***hidden***') and
    event (key 'enterprise-bypass-key') are the same for any two keys. *)
Theorem activateLicense_ignores_key (k1 k2 : string) (w : world) :
  activateLicense k1 w = activateLicense k2 w
  ∧ ∃ w', activateLicense k1 w = (Normal tt, w')
          ∧ logged w w'
              [ LogEntry "info" "License activation bypassed"
                  (Some [ ("activationKey", VStr "***hidden***") ]) ]
          ∧ emitted w w'
              [ Event "license-activated"
                  [ ("activationKey", VStr "enterprise-bypass-key");
                    ("planName", VStr "Enterprise") ] ]
          ∧ license w' = license w
          ∧ licenseState w' = licenseState w.
Proof.
  split; [reflexivity|]. eexists. repeat split.
Qed.

(** C5, as stated, fails: on an instance with two users the snapshot still
    reports [users.value = 1]. *)
Lemma getLicenseData_users_value_not_queried :
  ¬ (∀ (c : consumption) (w : world),
       workflowRepository w = repository_of c →
       ∃ d w', getLicenseData w = (Normal d, w')
               ∧ reports_consumption c (usage d) ∧ unlimited (usage d)).
Proof.
  intros H.
  destruct (H {| active_triggers := 0; evaluation_workflows := 0;
                 user_count := 2; variable_count := 0 |}
              (World ∅ ∅ (repository_of
                 {| active_triggers := 0; evaluation_workflows := 0;
                    user_count := 2; variable_count := 0 |}) [] [])
              eq_refl) as (d & w' & Hrun & (_ & _ & Husers & _) & _).
  injection Hrun as <- _. discriminate Husers.
Qed.

(** C5 (amended): when the two counting queries answer [t] and [e],
    [getLicenseData] returns, without changing anything, a snapshot whose
    trigger and evaluation values are [t] and [e], whose users and variables
    values are the constants 1 and 0, and whose four limits are
    [Number.MAX_SAFE_INTEGER]. *)
Theorem getLicenseData_usage (w : world) (t e : Z) :
  getActiveTriggerCount (workflowRepository w) = Normal t →
  getWorkflowsWithEvaluationCount (workflowRepository w) = Normal e →
  ∃ d, getLicenseData w = (Normal d, w)
       ∧ value (activeWorkflowTriggers (usage d)) = t
       ∧ value (workflowsHavingEvaluations (usage d)) = e
       ∧ value (users (usage d)) = 1
       ∧ value (variables (usage d)) = 0
       ∧ unlimited (usage d).
Proof.
  intros Ht He. eexists.
  unfold getLicenseData, mbind, M_bind, await. rewrite Ht, He. simpl.
  repeat split.
Qed.

Lemma getLicenseData_usage_witness :
  ∃ d, getLicenseData
         (World ∅ ∅ {| getActiveTriggerCount := Normal 7;
                       getWorkflowsWithEvaluationCount := Normal 3 |} [] [])
       = (Normal d,
          World ∅ ∅ {| getActiveTriggerCount := Normal 7;
                       getWorkflowsWithEvaluationCount := Normal 3 |} [] [])
       ∧ value (activeWorkflowTriggers (usage d)) = 7
       ∧ value (workflowsHavingEvaluations (usage d)) = 3
       ∧ value (users (usage d)) = 1
       ∧ value (variables (usage d)) = 0
       ∧ unlimited (usage d).
Proof.
  apply (getLicenseData_usage
           (World ∅ ∅ {| getActiveTriggerCount := Normal 7;
                         getWorkflowsWithEvaluationCount := Normal 3 |} [] [])
           7 3); reflexivity.
Defined.

End backend.

(* ===================================================================== *)
(** ** The settings store *)

Section store.
Import SettingsStore.

(** Running a bind. *)
Lemma bind_run {A B} (m : M A) (k : A → M B) (s : store) :
  (m ≫= k) s
  = match m s with
    | (Normal a, s') => k a s'
    | (Throw e, s') => (Throw e, s')
    end.
Proof. reflexivity. Qed.

(** *** The health flag is only written by [testTemplatesEndpoint] *)

Lemma keeps_health_ret {A} (a : A) : keeps_health (mret a).
Proof. by intros s. Qed.

Lemma keeps_health_bind {A B} (m : M A) (k : A → M B) :
  keeps_health m → (∀ a, keeps_health (k a)) → keeps_health (m ≫= k).
Proof.
  intros Hm Hk s. rewrite bind_run. specialize (Hm s).
  destruct (m s) as [[a|e] s']; simpl in *; [|done].
  by rewrite Hk.
Qed.

Lemma keeps_health_if {A} (b : bool) (m1 m2 : M A) :
  keeps_health m1 → keeps_health m2 → keeps_health (if b then m1 else m2).
Proof. by destruct b. Qed.

Lemma keeps_health_when (b : bool) (m : M unit) :
  keeps_health m → keeps_health (when b m).
Proof. destruct b; [done|]. intros _. apply keeps_health_ret. Qed.

Lemma keeps_health_try_catch {A} (m : M A) (h : error → M A) :
  keeps_health m → (∀ e, keeps_health (h e)) → keeps_health (try_catch m h).
Proof.
  intros Hm Hh s. unfold try_catch. specialize (Hm s).
  destruct (m s) as [[a|e] s']; simpl in *; [done|].
  by rewrite Hh.
Qed.

Lemma keeps_health_throw {A} (e : error) : keeps_health (@throw A e).
Proof. by intros s. Qed.

Lemma keeps_health_await {A} (q : completion error A) : keeps_health (await q).
Proof. by intros s. Qed.

Lemma keeps_health_read {A} (f : store → A) : keeps_health (read f).
Proof. by intros s. Qed.

Lemma keeps_health_get_prop v k : keeps_health (get_prop v k).
Proof. intros s. unfold get_prop. by repeat case_match. Qed.

Lemma keeps_health_get_opt v k : keeps_health (get_opt v k).
Proof.
  unfold get_opt. apply keeps_health_if;
    [apply keeps_health_ret|apply keeps_health_get_prop].
Qed.

Lemma keeps_health_set_prop v k x : keeps_health (set_prop v k x).
Proof. intros s. unfold set_prop. by repeat case_match. Qed.

Lemma keeps_health_alloc o : keeps_health (alloc o).
Proof. by intros s. Qed.

Lemma keeps_health_spread v : keeps_health (spread v).
Proof. intros s. unfold spread. by repeat case_match. Qed.

Lemma keeps_health_outcall t m args : keeps_health (outcall_ t m args).
Proof. by intros s. Qed.

Lemma keeps_health_modify (f : store → store) :
  (∀ s, templatesEndpointHealthy (f s) = templatesEndpointHealthy s) →
  keeps_health (modify f).
Proof. intros H s. apply H. Qed.

Create HintDb health.
#[local] Hint Resolve keeps_health_ret keeps_health_bind keeps_health_if
  keeps_health_when keeps_health_try_catch keeps_health_throw
  keeps_health_await keeps_health_read keeps_health_get_prop
  keeps_health_get_opt keeps_health_set_prop keeps_health_alloc
  keeps_health_spread keeps_health_outcall : health.
#[local] Hint Extern 1 (keeps_health (modify _)) =>
  apply keeps_health_modify; intros; reflexivity : health.

Ltac keeps := repeat (first
  [ solve [auto with health]
  | apply keeps_health_bind; [|intros ?]
  | apply keeps_health_if
  | apply keeps_health_when
  | apply keeps_health_try_catch; [|intros ?] ]).

Lemma keeps_health_spread_or_empty v : keeps_health (spread_or_empty v).
Proof. unfold spread_or_empty. keeps. Qed.

Lemma keeps_health_setSettings v : keeps_health (setSettings v).
Proof.
  unfold setSettings, Bowser_parse.
  pose proof keeps_health_spread_or_empty. keeps.
Qed.

Lemma keeps_health_forward_all v l : keeps_health (forward_all v l).
Proof. induction l as [|[a b] l IH]; simpl; keeps. Qed.

Lemma keeps_health_getSettings r : keeps_health (getSettings r).
Proof.
  unfold getSettings, setAllowedModules, setSaveDataErrorExecution,
    setSaveDataSuccessExecution, setSaveDataProgressExecution,
    setSaveManualExecutions.
  pose proof keeps_health_setSettings. pose proof keeps_health_forward_all.
  keeps.
Qed.

Lemma keeps_health_initialize r : keeps_health (initialize r).
Proof. unfold initialize. pose proof keeps_health_getSettings. keeps. Qed.


Lemma keeps_health_others :
  keeps_health stopShowingSetupPage
  ∧ keeps_health disableTemplates
  ∧ (∀ e u r, keeps_health (submitContactInfo e u r))
  ∧ (∀ r, keeps_health (getTimezones r))
  ∧ keeps_health reset
  ∧ (∀ r, keeps_health (getModuleSettings r)).
Proof.
  unfold stopShowingSetupPage, disableTemplates, submitContactInfo,
    getTimezones, reset, getModuleSettings.
  repeat split; intros; keeps.
Qed.

(** [templatesHost] is a pure read. *)
Lemma templatesHost_pure (s : store) : (templatesHost s).2 = s.
Proof.
  unfold templatesHost, get_opt, get_prop, read. rewrite !bind_run.
  simpl. repeat (case_match; simplify_eq/=; try done).
Qed.

(** The three ways a run of [testTemplatesEndpoint] can go. *)
Lemma testTemplatesEndpoint_run (probe : probe_outcome) (s : store) :
  let s1 := set_outside (outside s ++ [Call "window" "setTimeout" [VNum 2000]])%list s in
  match (templatesHost s1).1 with
  | Throw e => testTemplatesEndpoint probe s = (Throw e, s1)
  | Normal host =>
      let s2 := set_outside
                  (outside s1 ++ [Call "templatesApi" "testHealthEndpoint" [host]])%list s1 in
      match race_with_timeout probe with
      | Throw e => testTemplatesEndpoint probe s = (Throw e, s2)
      | Normal _ =>
          testTemplatesEndpoint probe s
          = (Normal tt, set_templatesEndpointHealthy true s2)
      end
  end.
Proof.
  intros s1. unfold testTemplatesEndpoint. rewrite bind_run.
  change (outcall_ "window" "setTimeout" [VNum 2000] s)
    with (@Normal error unit tt, s1).
  cbv beta iota. rewrite bind_run.
  pose proof (templatesHost_pure s1) as Hp.
  destruct (templatesHost s1) as [[host|e] s1']; simpl in *; subst s1'; [|done].
  rewrite !bind_run. simpl. unfold await.
  by destruct (race_with_timeout probe).
Qed.

Lemma testTemplatesEndpoint_health (probe : probe_outcome) (s : store) :
  templatesEndpointHealthy (testTemplatesEndpoint probe s).2
    = templatesEndpointHealthy s
  ∨ templatesEndpointHealthy (testTemplatesEndpoint probe s).2 = true.
Proof.
  pose proof (testTemplatesEndpoint_run probe s) as H. simpl in H.
  repeat case_match; rewrite H; simpl; auto.
Qed.

Lemma run_health (a : action) (s : store) :
  templatesEndpointHealthy s = true →
  templatesEndpointHealthy (run a s) = true.
Proof.
  intros Hs. destruct keeps_health_others as (H1 & H2 & H3 & H4 & H5 & H6).
  destruct a; simpl; try done;
    try (rewrite <- Hs;
         first [ apply keeps_health_setSettings | apply keeps_health_getSettings
               | apply keeps_health_initialize | apply H1 | apply H2
               | apply H3 | apply H4 | apply H5 | apply H6 ]).
  destruct (testTemplatesEndpoint_health probe s) as [-> | ->]; done.
Qed.

Lemma step_health (s s' : store) :
  step s s' →
  templatesEndpointHealthy s = true → templatesEndpointHealthy s' = true.
Proof. destruct 1; [apply run_health|done]. Qed.

(** C1: for each of the eighteen feature keys, whatever payload [setSettings]
    or [getSettings] ingested, from whatever state, the getter of the key
    and [isEnterpriseFeatureEnabled] applied to the key answer [true]. *)
Theorem enablement_getters_after_ingestion
    (k : feature_key) (s : store) (payload : value) :
  let after_set := (setSettings payload s).2 in
  let after_get := (getSettings (Normal payload) s).2 in
  enablement_getter k after_set = true
  ∧ isEnterpriseFeatureEnabled after_set [VStr (key_name k)] = true
  ∧ enablement_getter k after_get = true
  ∧ isEnterpriseFeatureEnabled after_get [VStr (key_name k)] = true.
Proof. by destruct k. Qed.

(** C2: [hasFeature], [isFeatureEnabled] and [getFeatureFlag] answer [true]
    for every name. *)
Theorem generic_lookups_always_true (x : string) :
  hasFeature x = true ∧ isFeatureEnabled x = true ∧ getFeatureFlag x = true.
Proof. done. Qed.

(** C6, as stated, fails: when the probe never settles, the call on the
    freshly created store ends in a rejection, it does not return. *)
Lemma testTemplatesEndpoint_timeout_rejects :
  ¬ (∀ s, ∃ s', testTemplatesEndpoint ProbeNever s = (Normal tt, s')
               ∧ templatesEndpointHealthy s' = templatesEndpointHealthy s).
Proof.
  intros H.
  destruct (H (useSettingsStore (Build_browser_env "" "" "" "" "")))
    as (s' & Hrun & _).
  vm_compute in Hrun. discriminate Hrun.
Qed.

(** C6 (amended): when the probe never settles, [testTemplatesEndpoint]
    leaves the health flag (and so [isTemplatesEndpointReachable]) as it
    was, and its promise rejects: with the timer's empty reason when
    [templatesHost] could be read, with the error of that read otherwise. *)
Theorem testTemplatesEndpoint_probe_never (s : store) :
  ∃ e s',
    testTemplatesEndpoint ProbeNever s = (Throw e, s')
    ∧ templatesEndpointHealthy s' = templatesEndpointHealthy s
    ∧ isTemplatesEndpointReachable s' = isTemplatesEndpointReachable s
    ∧ match (templatesHost s).1 with
      | Normal _ => e = Rejected VUndef
      | Throw e' => e = e'
      end.
Proof.
  pose proof (testTemplatesEndpoint_run ProbeNever s) as H. simpl in H.
  assert ((templatesHost
             (set_outside
                (outside s ++ [Call "window" "setTimeout" [VNum 2000]])%list s)).1
          = (templatesHost s).1) as Heq.
  { unfold templatesHost, get_opt, get_prop, read. rewrite !bind_run.
    simpl. by repeat (case_match; simplify_eq/=; try done). }
  rewrite Heq in H.
  destruct ((templatesHost s).1) as [host|e']; eexists _, _; (split; [exact H|]);
    done.
Qed.

(** C10: the health flag starts [false], and along any sequence of store
    actions and outside heap changes it never goes from [true] back to
    [false]; a run of [testTemplatesEndpoint] leaves it as it was or sets it
    to [true], and [reset] leaves it as it was. *)
Theorem health_flag_monotone (e : browser_env) (s s' : store) :
  steps s s' →
  templatesEndpointHealthy (useSettingsStore e) = false
  ∧ (templatesEndpointHealthy s = true → templatesEndpointHealthy s' = true)
  ∧ (∀ probe,
       templatesEndpointHealthy (run (TestTemplatesEndpoint probe) s')
         = templatesEndpointHealthy s'
       ∨ templatesEndpointHealthy (run (TestTemplatesEndpoint probe) s') = true)
  ∧ templatesEndpointHealthy (run Reset s') = templatesEndpointHealthy s'.
Proof.
  intros Hsteps. split; [done|]. split.
  - induction Hsteps as [s|s1 s2 s3 Hstep _ IH]; [done|].
    intros H1. apply IH. by apply (step_health s1).
  - split; [intros probe; apply testTemplatesEndpoint_health|].
    apply keeps_health_others.
Qed.

Lemma health_flag_monotone_witness :
  let e := Build_browser_env "https:" "example.org"
             "Mozilla/5.0 Firefox/128.0" "Firefox" "" in
  let s := run (TestTemplatesEndpoint (ProbeSettles 120 (Normal VUndef)))
               (useSettingsStore e) in
  templatesEndpointHealthy s = true
  ∧ templatesEndpointHealthy (run (TestTemplatesEndpoint ProbeNever) (run Reset s)) = true.
Proof.
  intros e s. split; [reflexivity|].
  refine (proj1 (proj2 (health_flag_monotone e s
            (run (TestTemplatesEndpoint ProbeNever) (run Reset s)) _)) _).
  - eapply steps_cons; [apply (step_action Reset)|].
    eapply steps_cons;
      [apply (step_action (TestTemplatesEndpoint ProbeNever))|].
    apply steps_refl.
  - reflexivity.
Defined.

End store.

(** *** Rules of the program logic *)

Section logic.
Import SettingsStore.

Lemma hoare_ret {A} (P : store → Prop) (a : A) :
  hoare P (mret a) (λ r s, r = a ∧ P s).
Proof. intros s HP. by exists a, s. Qed.

Lemma hoare_bind {A B} (P : store → Prop) (m : M A) (Q : A → store → Prop)
    (k : A → M B) (R : B → store → Prop) :
  hoare P m Q → (∀ a, hoare (Q a) (k a) R) → hoare P (m ≫= k) R.
Proof.
  intros Hm Hk s HP. destruct (Hm s HP) as (a & s1 & Hrun & HQ).
  rewrite bind_run, Hrun. by apply Hk.
Qed.

Lemma hoare_consequence {A} (P P' : store → Prop) (m : M A)
    (Q Q' : A → store → Prop) :
  hoare P' m Q' → (∀ s, P s → P' s) → (∀ a s, Q' a s → Q a s) → hoare P m Q.
Proof.
  intros Hm HP HQ s Hs. destruct (Hm s (HP s Hs)) as (a & s' & Hrun & Hpost).
  exists a, s'. auto.
Qed.

(** A fact that does not depend on the state moves out of the
    precondition. *)
Lemma hoare_pure {A} (φ : Prop) (P : store → Prop) (m : M A)
    (Q : A → store → Prop) :
  (φ → hoare P m Q) → hoare (λ s, φ ∧ P s) m Q.
Proof. intros H s [Hφ HP]. by apply H. Qed.

Lemma hoare_exact {A} (m : M A) (s1 s2 : store) (a : A) :
  m s1 = (Normal a, s2) →
  hoare (λ s, s = s1) m (λ r s, r = a ∧ s = s2).
Proof. intros H s Hs. rewrite Hs. by exists a, s2. Qed.

Lemma hoare_read {A} (P : store → Prop) (f : store → A) :
  hoare P (read f) (λ a s, a = f s ∧ P s).
Proof. intros s HP. by exists (f s), s. Qed.

Lemma hoare_modify (P Q : store → Prop) (f : store → store) :
  (∀ s, P s → Q (f s)) → hoare P (modify f) (λ _ s, Q s).
Proof. intros H s HP. exists tt, (f s). auto. Qed.

Lemma hoare_when (P Q : store → Prop) (b : bool) (m : M unit) :
  (b = true → hoare P m (λ _, Q)) → (b = false → ∀ s, P s → Q s) →
  hoare P (when b m) (λ _, Q).
Proof.
  destruct b; simpl; intros Ht Hf; [by apply Ht|].
  intros s HP. exists tt, s. auto.
Qed.

(** Code that may throw: the head of a sequence returns, the rest may not. *)
Lemma ends_bind {A B} (P : store → Prop) (m : M A) (Q : A → store → Prop)
    (k : A → M B) (R : completion error B → store → Prop) :
  hoare P m Q → (∀ a, ends (Q a) (k a) R) → ends P (m ≫= k) R.
Proof.
  intros Hm Hk s HP. destruct (Hm s HP) as (a & s1 & Hrun & HQ).
  rewrite bind_run, Hrun. by apply Hk.
Qed.

(** The head may throw as well; then the rest does not run. *)
Lemma ends_bind_throw {A B} (P : store → Prop) (m : M A)
    (Q : completion error A → store → Prop) (k : A → M B)
    (R : completion error B → store → Prop) :
  ends P m Q → (∀ a, ends (Q (Normal a)) (k a) R) →
  (∀ e s, Q (Throw e) s → R (Throw e) s) → ends P (m ≫= k) R.
Proof.
  intros Hm Hk He s HP. specialize (Hm s HP). rewrite bind_run.
  destruct (m s) as [[a|e] s1]; cbn [fst snd] in Hm.
  - by apply Hk.
  - by apply He.
Qed.

Lemma ends_pure {A} (φ : Prop) (P : store → Prop) (m : M A)
    (Q : completion error A → store → Prop) :
  (φ → ends P m Q) → ends (λ s, φ ∧ P s) m Q.
Proof. intros H s [Hφ HP]. by apply H. Qed.

Lemma ends_hoare {A} (P : store → Prop) (m : M A) (Q : A → store → Prop)
    (R : completion error A → store → Prop) :
  hoare P m Q → (∀ a s, Q a s → R (Normal a) s) → ends P m R.
Proof.
  intros Hm HR s HP. destruct (Hm s HP) as (a & s1 & Hrun & HQ).
  rewrite Hrun. by apply HR.
Qed.

(** Running the heap primitives on live objects. *)
Lemma get_prop_run (s : store) (l : loc) (o : gmap string value) (k : string) :
  heap s !! l = Some o →
  get_prop (VRef l) k s = (Normal (default VUndef (o !! k)), s).
Proof. intros H. unfold get_prop. by rewrite H. Qed.

Lemma set_prop_run (s : store) (l : loc) (o : gmap string value)
    (k : string) (x : value) :
  heap s !! l = Some o →
  set_prop (VRef l) k x s
  = (Normal tt, set_heap (<[l := <[k := x]> o]> (heap s)) s).
Proof. intros H. unfold set_prop. by rewrite H. Qed.

Lemma is_object_lookup (h : list (gmap string value)) (v : value) :
  is_object h v = true → ∃ l o, v = VRef l ∧ h !! l = Some o.
Proof.
  destruct v; try done. simpl. intros Hl%bool_decide_eq_true.
  destruct (lookup_lt_is_Some_2 h l Hl) as [o Ho]. eauto.
Qed.

Lemma is_object_mono (h h' : list (gmap string value)) (v : value) :
  (length h ≤ length h')%nat → is_object h v = true → is_object h' v = true.
Proof.
  destruct v; try done. simpl. rewrite !bool_decide_eq_true. lia.
Qed.

Lemma live_mono (h h' : list (gmap string value)) (v : value) :
  (length h ≤ length h')%nat → live h v = true → live h' v = true.
Proof.
  destruct v; try done. simpl. rewrite !bool_decide_eq_true. lia.
Qed.

(** Reads never change the state; they succeed on everything but
    [undefined], [null] and references to nowhere. *)
Lemma get_prop_ok (s : store) (v : value) (k : string) :
  live (heap s) v = true → nullish v = false →
  ∃ a, get_prop v k s = (Normal a, s).
Proof.
  intros Hl Hn. destruct v; try done; try by eexists.
  destruct (is_object_lookup (heap s) (VRef l) Hl) as (l' & o & [= <-] & Ho).
  eexists. by apply get_prop_run.
Qed.

Lemma get_opt_ok (s : store) (v : value) (k : string) :
  live (heap s) v = true → ∃ a, get_opt v k s = (Normal a, s).
Proof.
  intros Hl. unfold get_opt. destruct (nullish v) eqn:Hn; [by eexists|].
  by apply get_prop_ok.
Qed.

Lemma spread_or_empty_ok (s : store) (v : value) :
  live (heap s) v = true → ∃ props, spread_or_empty v s = (Normal props, s).
Proof.
  intros Hl. unfold spread_or_empty. destruct (truthy v); [|by eexists].
  destruct v; try by eexists.
  destruct (is_object_lookup (heap s) (VRef l) Hl) as (l' & o & [= <-] & Ho).
  exists o. unfold spread. by rewrite Ho.
Qed.

End logic.


(* ===================================================================== *)
(** ** Further properties of the backend service *)

Section backend_more.
Import LicenseService.

(** [getLicenseData] reads only: it never changes a collaborator.  It
    rejects exactly when one of the two counting queries rejects, with the
    error of the first one that does. *)
Theorem getLicenseData_rejects_with_first_failure (w : world) :
  (getLicenseData w).2 = w
  ∧ match getActiveTriggerCount (workflowRepository w),
          getWorkflowsWithEvaluationCount (workflowRepository w) with
    | Throw e, _ => (getLicenseData w).1 = Throw e
    | Normal _, Throw e => (getLicenseData w).1 = Throw e
    | Normal t, Normal e =>
        ∃ d, (getLicenseData w).1 = Normal d
             ∧ value (activeWorkflowTriggers (usage d)) = t
             ∧ value (workflowsHavingEvaluations (usage d)) = e
    end.
Proof.
  unfold getLicenseData, mbind, M_bind, await.
  destruct (getActiveTriggerCount (workflowRepository w)) as [t|e1];
    [|done].
  destruct (getWorkflowsWithEvaluationCount (workflowRepository w))
    as [e|e2]; [|done].
  split; [done|]. by eexists.
Qed.

(** No request but the construction of a service touches the license or the
    license-state object. *)
Lemma serve_license (w : world) (q : request) :
  q ≠ NewService →
  license (serve w q) = license w
  ∧ licenseState (serve w q) = licenseState w
  ∧ workflowRepository (serve w q) = workflowRepository w.
Proof.
  intros Hq. destruct q; try done; cbn [serve].
  pose proof (getLicenseData_rejects_with_first_failure w) as [-> _]. done.
Qed.

Lemma installed_patch (w : world) :
  installed license_overrides (license (new_LicenseService w).2)
  ∧ installed licenseState_overrides (licenseState (new_LicenseService w).2).
Proof.
  unfold new_LicenseService. rewrite patchLicenseForEnterprise_run.
  cbn [snd license licenseState]. split.
  - apply overrides_installed, license_overrides_NoDup.
  - apply overrides_installed, licenseState_overrides_NoDup.
Qed.

Lemma serve_installed (w : world) (q : request) :
  installed license_overrides (license w) →
  installed licenseState_overrides (licenseState w) →
  installed license_overrides (license (serve w q))
  ∧ installed licenseState_overrides (licenseState (serve w q)).
Proof.
  intros H1 H2.
  assert (q = NewService ∨ q ≠ NewService) as [->|Hq]
    by (destruct q; auto).
  - apply installed_patch.
  - destruct (serve_license w q Hq) as (-> & -> & _). done.
Qed.

(** Once a service has been constructed, the override stays installed
    whatever is requested afterwards, in any number and order: every patched
    getter of the license and of the license state keeps answering with its
    forced value. *)
Theorem override_persists (w : world) (qs : list request) :
  let w' := foldl serve (new_LicenseService w).2 qs in
  installed license_overrides (license w')
  ∧ installed licenseState_overrides (licenseState w').
Proof.
  cbv zeta. pose proof (installed_patch w) as [H1 H2].
  revert H1 H2. generalize ((new_LicenseService w).2). clear w.
  induction qs as [|q qs IH]; intros w H1 H2; [done|].
  cbn [foldl]. destruct (serve_installed w q H1 H2) as [H1' H2'].
  by apply IH.
Qed.

(** What [getLicenseData] reports, whenever it answers, agrees with what
    the patched license answers: plan name and product, validity, the four
    limits, and every listed feature. *)
Theorem getLicenseData_agrees_with_license (w : world) :
  let w1 := (new_LicenseService w).2 in
  let lic := license w1 in
  match (getLicenseData w1).1 with
  | Throw _ => True
  | Normal d =>
      call lic "getPlanName" [] = Some (VStr (planName (license_ d)))
      ∧ call lic "hasValidLicense" []
        = Some (VBool (isValidLicense (license_ d)))
      ∧ call lic "getMainPlan" []
        = Some (VObj [ ("productId", VStr (planId (license_ d)));
                       ("productName", VStr "Enterprise Unlimited");
                       ("productMetadata", VObj []) ])
      ∧ call lic "getTriggerLimit" []
        = Some (VNum (limit (activeWorkflowTriggers (usage d))))
      ∧ call lic "getUsersLimit" [] = Some (VNum (limit (users (usage d))))
      ∧ call lic "getVariablesLimit" []
        = Some (VNum (limit (variables (usage d))))
      ∧ call (licenseState w1) "getMaxWorkflowsWithEvaluations" []
        = Some (VNum (limit (workflowsHavingEvaluations (usage d))))
      ∧ call lic "getManagementJwt" [] = Some (VStr getManagementJwt)
      ∧ Forall (λ fb, fb.2 = true
                      ∧ call lic "isFeatureEnabled" [VStr fb.1]
                        = Some (VBool true))
          (features d)
  end.
Proof.
  cbv zeta. destruct (installed_patch w) as [H1 H2]. revert H1 H2.
  generalize ((new_LicenseService w).2). intros w1 H1 H2.
  unfold installed in H1, H2. rewrite Forall_forall in H1, H2.
  unfold getLicenseData, mbind, M_bind, await.
  destruct (getActiveTriggerCount (workflowRepository w1)); [|done].
  destruct (getWorkflowsWithEvaluationCount (workflowRepository w1));
    [|done].
  cbn [fst usage license_ features limit planName planId isValidLicense
       users variables activeWorkflowTriggers workflowsHavingEvaluations].
  repeat split.
  - apply (H1 ("getPlanName", konst (VStr "Enterprise"))).
    unfold license_overrides. in_list.
  - apply (H1 ("hasValidLicense", konst (VBool true))).
    unfold license_overrides. in_list.
  - apply (H1 ("getMainPlan",
               konst (VObj [ ("productId", VStr "enterprise-unlimited");
                             ("productName", VStr "Enterprise Unlimited");
                             ("productMetadata", VObj []) ]))).
    unfold license_overrides. in_list.
  - apply (H1 ("getTriggerLimit", konst (VNum MAX_SAFE_INTEGER))).
    unfold license_overrides. in_list.
  - apply (H1 ("getUsersLimit", konst (VNum MAX_SAFE_INTEGER))).
    unfold license_overrides. in_list.
  - apply (H1 ("getVariablesLimit", konst (VNum MAX_SAFE_INTEGER))).
    unfold license_overrides. in_list.
  - apply (H2 ("getMaxWorkflowsWithEvaluations",
               konst (VNum MAX_SAFE_INTEGER))).
    unfold licenseState_overrides. in_list.
  - apply (H1 ("getManagementJwt", konst (VStr "enterprise-bypass-token"))).
    unfold license_overrides. in_list.
  - repeat (apply Forall_cons_2;
      [split; [reflexivity|];
       apply (H1 ("isFeatureEnabled", konst (VBool true)));
       unfold license_overrides; in_list|]).
    apply Forall_nil_2.
Qed.

(** [instanceUrl] does not flow into any output of
    [registerCommunityEdition]: two registrations that agree on the other
    four fields give the same result, log line and event. *)
Theorem registerCommunityEdition_ignores_instanceUrl
    (r1 r2 : registration) (w : world) :
  same_but_instanceUrl r1 r2 →
  registerCommunityEdition r1 w = registerCommunityEdition r2 w.
Proof.
  intros (H1 & H2 & H3 & H4).
  unfold registerCommunityEdition. by rewrite H1, H2, H3, H4.
Qed.

Lemma registerCommunityEdition_ignores_instanceUrl_witness :
  let r url := {| userId := "u1"; email := "a@b.c"; instanceId := "i1";
                  instanceUrl := url; licenseType := "community" |} in
  registerCommunityEdition (r "https://one.example") (World ∅ ∅ (repository_of
       {| active_triggers := 0; evaluation_workflows := 0;
          user_count := 1; variable_count := 0 |}) [] [])
  = registerCommunityEdition (r "") (World ∅ ∅ (repository_of
       {| active_triggers := 0; evaluation_workflows := 0;
          user_count := 1; variable_count := 0 |}) [] []).
Proof.
  intros r.
  apply (registerCommunityEdition_ignores_instanceUrl
           (r "https://one.example") (r "")).
  by repeat split.
Defined.

(** [mapErrorMessage]: an error that carries a known [errorId] is mapped to
    the message of the table and nothing is logged; an error without
    [errorId] is mapped to "Failed to <action> license: <message>", and that
    text is logged once at level error with the stack, or 'n/a' when the
    error has none.  The result is never the empty string. *)
Theorem mapErrorMessage_cases (error : LicenseError) (action : license_action)
    (w : world) :
  ∃ m w', mapErrorMessage error action w = (Normal m, w')
    ∧ m ≠ ""
    ∧ eventService w' = eventService w ∧ license w' = license w
    ∧ match errorId error with
      | Some id => m = LicenseErrors id ∧ w' = w
      | None =>
          m = "Failed to " +:+ action_name action +:+ " license: "
              +:+ error_message error
          ∧ logged w w'
              [ LogEntry "error" m
                  (Some [ ("stack",
                           VStr (default "n/a" (error_stack error))) ]) ]
      end.
Proof.
  unfold mapErrorMessage. destruct (errorId error) as [id|]; simpl.
  - destruct id; simpl; eexists _, _; (split; [reflexivity|]);
      repeat split; by destruct w.
  - eexists _, _. split; [reflexivity|]. repeat split. done.
Qed.

(** The table cannot tell a missing key from a conflicting reservation. *)
Lemma LicenseErrors_not_injective :
  LicenseErrors NOT_FOUND = LicenseErrors RESERVATION_CONFLICT.
Proof. reflexivity. Qed.

End backend_more.

(* ===================================================================== *)
(** ** Further properties of the settings store *)

(** *** Frames: what store code leaves alone *)

Section frame.
Import SettingsStore.

Context (R : store → store → Prop) `{!PreOrder R}.

Lemma respects_ret {A} (a : A) : respects R (mret a).
Proof. intros s. simpl. reflexivity. Qed.

Lemma respects_bind {A B} (m : M A) (k : A → M B) :
  respects R m → (∀ a, respects R (k a)) → respects R (m ≫= k).
Proof.
  intros Hm Hk s. rewrite bind_run. specialize (Hm s).
  destruct (m s) as [[a|e] s']; simpl in *; [|done].
  by etransitivity; [exact Hm|apply Hk].
Qed.

Lemma respects_if {A} (b : bool) (m1 m2 : M A) :
  respects R m1 → respects R m2 → respects R (if b then m1 else m2).
Proof. by destruct b. Qed.

Lemma respects_when (b : bool) (m : M unit) :
  respects R m → respects R (when b m).
Proof. destruct b; [done|]. intros _. apply respects_ret. Qed.

Lemma respects_try_catch {A} (m : M A) (h : error → M A) :
  respects R m → (∀ e, respects R (h e)) → respects R (try_catch m h).
Proof.
  intros Hm Hh s. unfold try_catch. specialize (Hm s).
  destruct (m s) as [[a|e] s']; simpl in *; [done|].
  by etransitivity; [exact Hm|apply Hh].
Qed.

Lemma respects_throw {A} (e : error) : respects R (@throw A e).
Proof. intros s. simpl. reflexivity. Qed.

Lemma respects_await {A} (q : completion error A) : respects R (await q).
Proof. intros s. simpl. reflexivity. Qed.

Lemma respects_read {A} (f : store → A) : respects R (read f).
Proof. intros s. simpl. reflexivity. Qed.

Lemma respects_get_prop (v : value) (k : string) : respects R (get_prop v k).
Proof. intros s. unfold get_prop. repeat case_match; simpl; reflexivity. Qed.

Lemma respects_get_opt (v : value) (k : string) : respects R (get_opt v k).
Proof.
  unfold get_opt. apply respects_if;
    [apply respects_ret|apply respects_get_prop].
Qed.

Lemma respects_spread (v : value) : respects R (spread v).
Proof. intros s. unfold spread. repeat case_match; simpl; reflexivity. Qed.

Lemma respects_spread_or_empty (v : value) : respects R (spread_or_empty v).
Proof.
  unfold spread_or_empty. apply respects_if;
    [apply respects_spread|apply respects_ret].
Qed.

Lemma respects_modify (f : store → store) :
  (∀ s, R s (f s)) → respects R (modify f).
Proof. intros H s. apply H. Qed.

Lemma respects_outcall (t m : string) (args : list value) :
  (∀ s o, R s (set_outside o s)) → respects R (outcall_ t m args).
Proof. intros H s. apply H. Qed.

Lemma respects_alloc (o : gmap string value) :
  (∀ s, R s (set_heap (heap s ++ [o]) s)) → respects R (alloc o).
Proof. intros H s. apply H. Qed.

Lemma respects_set_prop (v : value) (k : string) (x : value) :
  (∀ s l o, heap s !! l = Some o →
            R s (set_heap (<[l := <[k := x]> o]> (heap s)) s)) →
  respects R (set_prop v k x).
Proof.
  intros H s. unfold set_prop. repeat case_match; simpl; try reflexivity.
  by apply H.
Qed.

End frame.

(** Walks through a piece of store code; [tac] settles what the primitives
    that change the state ask for. *)
Section preorders.
Import SettingsStore.

Lemma same_refs_preorder : PreOrder same_refs.
Proof.
  split.
  - by intros s.
  - intros s1 s2 s3 (H1 & H2 & H3 & H4) (H1' & H2' & H3' & H4').
    repeat split; try congruence. lia.
Qed.

Lemma same_initialized_preorder : PreOrder same_initialized.
Proof.
  split; [by intros s|]. intros s1 s2 s3 H1 H2. unfold same_initialized in *.
  congruence.
Qed.

Lemma same_userManagement_preorder : PreOrder same_userManagement.
Proof.
  split; [by intros s|]. intros s1 s2 s3 H1 H2.
  unfold same_userManagement in *. congruence.
Qed.

Lemma same_prop_preorder l k : PreOrder (same_prop l k).
Proof.
  split; [by intros s|]. intros s1 s2 s3 H1 H2 Hl.
  destruct (H1 Hl) as [Hl2 E1]. destruct (H2 Hl2) as [Hl3 E2].
  split; [done|congruence].
Qed.

End preorders.

Ltac preorder :=
  try match goal with
      | |- PreOrder _ =>
          first [ apply same_refs_preorder | apply same_initialized_preorder
                | apply same_userManagement_preorder
                | apply same_prop_preorder ]
      end.

Ltac frame tac := repeat first
  [ match goal with |- ∀ _, _ => intros ? end
  | apply respects_ret; preorder | apply respects_read; preorder
  | apply respects_get_prop; preorder | apply respects_get_opt; preorder
  | apply respects_spread; preorder
  | apply respects_spread_or_empty; preorder
  | apply respects_await; preorder | apply respects_throw; preorder
  | solve [tac]
  | apply respects_bind; preorder
  | apply respects_if | apply respects_when; preorder
  | apply respects_try_catch; preorder ].

(** The primitives and [same_refs]. *)
Ltac refs_tac := first
  [ apply respects_modify; intros ?; by repeat split
  | apply respects_outcall; intros ??; by repeat split
  | apply respects_alloc; intros ?; repeat split; simpl;
    rewrite ?length_app; simpl; lia
  | apply respects_set_prop; preorder; intros ????; repeat split; simpl;
    rewrite ?length_insert; lia
  | assumption ].

(** The primitives and a field that only [modify] could change. *)
Ltac field_tac := first
  [ apply respects_modify; intros ?; reflexivity
  | apply respects_outcall; intros ??; reflexivity
  | apply respects_alloc; intros ?; reflexivity
  | apply respects_set_prop; preorder; intros ????; reflexivity
  | assumption ].

Section frames.
Import SettingsStore.

Lemma same_refs_setSettings v : respects same_refs (setSettings v).
Proof. unfold setSettings, Bowser_parse. frame refs_tac. Qed.

Lemma same_refs_forward_all v l : respects same_refs (forward_all v l).
Proof. induction l as [|[a b] l IH]; simpl; frame refs_tac. Qed.

Lemma same_refs_getSettings r : respects same_refs (getSettings r).
Proof.
  pose proof same_refs_setSettings. pose proof same_refs_forward_all.
  unfold getSettings. frame ltac:(first [by auto | refs_tac]).
Qed.

Lemma same_refs_run (a : action) (s : store) : same_refs s (run a s).
Proof.
  pose proof same_refs_setSettings. pose proof same_refs_getSettings.
  destruct a; cbn [run];
    try match goal with
        | |- same_refs _ (?m _).2 =>
            revert s; change (respects same_refs m)
        end;
    try done;
    try (unfold initialize, stopShowingSetupPage, disableTemplates,
           submitContactInfo, testTemplatesEndpoint, templatesHost,
           getTimezones, reset, getModuleSettings;
         frame ltac:(first [by auto | refs_tac])).
Qed.

(** No action reassigns the [mfa] or [folders] ref or the page, and no
    action removes an object from the heap.  So in every state that store
    actions reach from a fresh store, [mfa] and [folders] hold live
    objects. *)
Theorem store_refs_stable :
  (∀ a s, same_refs s (run a s))
  ∧ ∀ e acts,
      store_ok (foldl (λ s a, run a s) (useSettingsStore e) acts) = true.
Proof.
  split; [apply same_refs_run|]. intros e acts.
  assert (store_ok (useSettingsStore e) = true) as H0 by done.
  revert H0. generalize (useSettingsStore e).
  induction acts as [|a acts IH]; intros s Hs; [done|].
  simpl. apply IH.
  destruct (same_refs_run a s) as (Hm & Hf & _ & Hlen).
  apply andb_prop in Hs as [H1 H2]. unfold store_ok.
  rewrite Hm, Hf. apply andb_true_intro.
  split; eapply is_object_mono; eauto.
Qed.


Lemma same_initialized_setSettings v :
  respects same_initialized (setSettings v).
Proof. unfold setSettings, Bowser_parse. frame field_tac. Qed.

Lemma same_initialized_forward_all v l :
  respects same_initialized (forward_all v l).
Proof. induction l as [|[a b] l IH]; simpl; frame field_tac. Qed.

Lemma same_initialized_getSettings r :
  respects same_initialized (getSettings r).
Proof.
  pose proof same_initialized_setSettings.
  pose proof same_initialized_forward_all.
  unfold getSettings. frame ltac:(first [by auto | field_tac]).
Qed.

(** How [initialize] runs on a store that is not initialized. *)
Lemma initialize_run (r : completion error value) (s : store) :
  initialized s = false →
  initialize r s
  = match getSettings r s with
    | (Normal _, s1) => (Normal tt, set_initialized true s1)
    | (Throw e, s1) =>
        (Throw e, set_outside (outside s1 ++ [startup_toast])%list s1)
    end.
Proof.
  intros Hs. unfold initialize. rewrite bind_run. unfold read at 1.
  cbv beta iota. rewrite Hs. unfold try_catch. rewrite bind_run.
  by destruct (getSettings r s) as [[[]|e] s1].
Qed.

(** [initialize] on a store that is not initialized: the flag is set exactly
    when the call returns; when it throws, whatever the reason, the flag
    stays [false] (a later call tries again) and the last thing done was to
    show the start-up error toast.  A rejected fetch is rethrown as it
    is. *)
Theorem initialize_outcome (r : completion error value) (s : store) :
  initialized s = false →
  let s' := (initialize r s).2 in
  match (initialize r s).1 with
  | Normal _ => initialized s' = true
  | Throw e =>
      initialized s' = false
      ∧ (∃ calls, outside s' = (calls ++ [startup_toast])%list)
      ∧ match r with Throw e' => e = e' | Normal _ => True end
  end.
Proof.
  intros Hs. cbv zeta. rewrite (initialize_run r s Hs).
  pose proof (same_initialized_getSettings r s) as Hi.
  unfold same_initialized in Hi.
  assert (match r with
          | Throw e' => (getSettings r s).1 = Throw e'
          | Normal _ => True
          end) as Hr.
  { destruct r; [done|]. unfold getSettings. rewrite bind_run.
    cbn [outcall_ modify]. cbv beta iota. rewrite bind_run. reflexivity. }
  destruct (getSettings r s) as [[[]|e] s1]; cbn [fst snd] in *; [done|].
  split; [by rewrite <- Hs|]. split; [by eexists|].
  destruct r; [done|]. congruence.
Qed.

Lemma initialize_outcome_witness :
  let s := useSettingsStore
             (Build_browser_env "https:" "a.example"
                "Mozilla/5.0 Firefox/128.0" "Firefox" "") in
  (initialize (Throw (Rejected (VStr "offline"))) s).1
    = Throw (Rejected (VStr "offline"))
  ∧ initialized (initialize (Throw (Rejected (VStr "offline"))) s).2 = false.
Proof.
  intros s.
  pose proof (initialize_outcome (Throw (Rejected (VStr "offline"))) s
                eq_refl) as H.
  split; [reflexivity|]. cbv zeta in H.
  change ((initialize (Throw (Rejected (VStr "offline"))) s).1)
    with (@Throw error unit (Rejected (VStr "offline"))) in H.
  apply H.
Defined.

(** Once [initialize] has returned, every further call returns at once:
    nothing is requested and nothing changes, whatever the server would
    answer. *)
Theorem initialize_once (r1 r2 : completion error value) (s : store) :
  initialized s = false →
  (initialize r1 s).1 = Normal tt →
  initialize r2 (initialize r1 s).2 = (Normal tt, (initialize r1 s).2).
Proof.
  intros Hs Hok. rewrite (initialize_run r1 s Hs) in *.
  destruct (getSettings r1 s) as [[[]|e] s1]; [|done].
  unfold initialize. rewrite bind_run. unfold read at 1. by cbv beta iota.
Qed.

Lemma initialize_once_witness :
  initialize (Throw TypeError)
    (initialize (Normal (VRef 7%nat)) community_payload_store).2
  = (Normal tt, (initialize (Normal (VRef 7%nat)) community_payload_store).2).
Proof.
  apply (initialize_once (Normal (VRef 7%nat)) (Throw TypeError)
           community_payload_store); vm_compute; reflexivity.
Defined.

(** *** The write footprint of the actions *)

Lemma same_prop_set_prop (l : loc) (k k' : string) (x : value) (s : store)
    (l' : loc) (o : gmap string value) :
  k' ≠ k → heap s !! l' = Some o →
  same_prop l k s (set_heap (<[l' := <[k' := x]> o]> (heap s)) s).
Proof.
  intros Hk Ho Hl. unfold prop_of. simpl. rewrite length_insert.
  split; [done|]. destruct (decide (l' = l)) as [->|Hne].
  - rewrite list_lookup_insert_eq by done. rewrite Ho. simpl.
    by rewrite lookup_insert_ne.
  - by rewrite list_lookup_insert_ne.
Qed.

Lemma same_prop_alloc (l : loc) (k : string) (o : gmap string value)
    (s : store) :
  same_prop l k s (set_heap (heap s ++ [o]) s).
Proof.
  intros Hl. unfold prop_of. simpl. rewrite length_app.
  split; [lia|]. by rewrite lookup_app_l.
Qed.


End frames.

(** The primitives and [same_prop l k]; [Hk] says that [k] is outside the
    footprint at hand. *)
Ltac prop_tac_with neq := first
  [ apply respects_modify; intros ??; by split
  | apply respects_outcall; intros ???; by split
  | apply respects_alloc; intros ?; apply same_prop_alloc
  | apply respects_set_prop; preorder; intros ????;
    apply same_prop_set_prop; [neq|done]
  | assumption ].

Ltac prop_tac Hk :=
  prop_tac_with ltac:(intros <-; apply Hk; simpl; in_list).

(** The same for a property name that is written out. *)
Ltac prop_tac_lit :=
  prop_tac_with ltac:(apply String.eqb_neq; reflexivity).

Section footprints.
Import SettingsStore.

Lemma same_prop_setSettings (l : loc) (k : string) (v : value) :
  k ∉ footprint (SetSettings v) →
  respects (same_prop l k) (setSettings v).
Proof.
  intros Hk. unfold setSettings, Bowser_parse. frame ltac:(prop_tac Hk).
Qed.

Lemma same_prop_forward_all (l : loc) (k : string) v ps :
  respects (same_prop l k) (forward_all v ps).
Proof.
  induction ps as [|[a b] ps IH]; simpl; frame ltac:(prop_tac I).
Qed.

Lemma same_prop_getSettings (l : loc) (k : string) r :
  k ∉ written_keys → respects (same_prop l k) (getSettings r).
Proof.
  intros Hk.
  assert (∀ v, respects (same_prop l k) (setSettings v)) as Hset.
  { intros v. apply same_prop_setSettings. intros Hin. apply Hk.
    unfold written_keys. cbn [footprint] in Hin.
    repeat (apply elem_of_cons in Hin as [->|Hin]; [in_list|]).
    by apply elem_of_nil in Hin. }
  pose proof (same_prop_forward_all l k).
  unfold getSettings. frame ltac:(first [by auto | prop_tac Hk]).
Qed.

(** No action assigns to a property outside its footprint: whatever object
    of the heap one looks at, each other property reads after the action as
    it did before.  (Objects are replaced, not rewritten, by
    [disableTemplates] and [reset]; [setSettings] attaches new [enterprise]
    and [license] objects.) *)
Theorem action_footprint (a : action) (s : store) (l : loc) (k : string) :
  k ∉ footprint a → same_prop l k s (run a s).
Proof.
  intros Hk.
  destruct a; cbn [run]; try done;
    match goal with
    | |- same_prop _ _ _ (?m _).2 =>
        revert s; change (respects (same_prop l k) m)
    end.
  all: try (by apply same_prop_setSettings).
  all: try (by apply same_prop_getSettings).
  all: pose proof (same_prop_getSettings l k); cbn [footprint] in Hk;
    unfold initialize, stopShowingSetupPage, disableTemplates,
      submitContactInfo, testTemplatesEndpoint, templatesHost, getTimezones,
      reset, getModuleSettings;
    frame ltac:(first [by auto | prop_tac Hk]).
Qed.

Lemma action_footprint_witness :
  prop_of (run (SetSettings (VRef 7%nat)) community_payload_store)
    10%nat "quota"
  = Some (VNum (-1)).
Proof.
  refine (eq_trans (proj2 (action_footprint (SetSettings (VRef 7%nat))
            community_payload_store 10%nat "quota" _ _)) _).
  - simpl. rewrite !not_elem_of_cons. repeat split; try discriminate.
    apply not_elem_of_nil.
  - vm_compute. lia.
  - reflexivity.
Defined.

End footprints.

(** A name is not in a list that is written out. *)
Lemma not_in_names (k : string) (l : list string) :
  existsb (String.eqb k) l = false → k ∉ l.
Proof.
  intros H Hin. apply not_true_iff_false in H. apply H.
  apply existsb_exists. exists k.
  split; [by apply list_elem_of_In|apply String.eqb_refl].
Qed.

(** *** Edge behaviour of the actions and of the computed values *)

Section edges.
Import SettingsStore.

(** Reading a property changes nothing, and can only fail with a
    [TypeError]. *)
Lemma get_prop_cases (v : value) (k : string) (s : store) :
  (∃ a, get_prop v k s = (Normal a, s))
  ∨ get_prop v k s = (Throw TypeError, s).
Proof. unfold get_prop. repeat case_match; eauto. Qed.

Lemma get_opt_cases (v : value) (k : string) (s : store) :
  (∃ a, get_opt v k s = (Normal a, s))
  ∨ get_opt v k s = (Throw TypeError, s).
Proof.
  unfold get_opt. destruct (nullish v); [left; by eexists|].
  apply get_prop_cases.
Qed.

(** A payload that is [undefined] or [null] makes [setSettings] throw a
    [TypeError], but only after it has been stored: [settings.value] is left
    nullish, no other ref is touched, and the reads and actions that go
    through [settings.value] throw in turn. *)
Theorem setSettings_nullish (v : value) (s : store) :
  nullish v = true →
  setSettings v s = (Throw TypeError, set_settings v s)
  ∧ (templatesHost (set_settings v s)).1 = Throw TypeError
  ∧ (disableTemplates (set_settings v s)).1 = Throw TypeError
  ∧ (consumerId (set_settings v s)).1 = Normal VUndef.
Proof.
  intros Hv. destruct v; try done; repeat split.
Qed.

Lemma setSettings_nullish_witness :
  (setSettings VNull community_payload_store).1 = Throw TypeError.
Proof.
  by rewrite (proj1 (setSettings_nullish VNull community_payload_store
                       eq_refl)).
Defined.

(** What [reset] does. *)
Lemma reset_run (s : store) :
  reset s
  = (Normal tt,
     set_settings (VRef (length (heap s))) (set_heap (heap s ++ [∅]) s)).
Proof. reflexivity. Qed.






(** [partialExecutionVersion] returns 1 or 2 whatever the payload and the
    local storage hold, and a stored 1 or 2 wins over the payload.  It
    throws only when the settings cannot be read, before it looks at the
    storage.  When nothing is stored, reading the version writes the
    default "-1" to the local storage; otherwise nothing changes. *)
Theorem partialExecutionVersion_range (stored : option value) (s : store) :
  let r := partialExecutionVersion stored s in
  match r.1 with
  | Normal v =>
      (v = VNum 1 ∨ v = VNum 2)
      ∧ match stored with
        | Some u =>
            (if strict_eq u (VNum 1) || strict_eq u (VNum 2)
             then v = u else True)
            ∧ r.2 = s
        | None =>
            r.2 = set_outside
                    (outside s
                     ++ [ Call "localStorage" "setItem"
                            [ VStr "PartialExecution.version";
                              VStr "-1" ] ])%list s
        end
  | Throw e => e = TypeError ∧ r.2 = s
  end.
Proof.
  cbv zeta.
  destruct (get_prop_cases (settings s) "partialExecution" s)
    as [[pe Hpe] | Hpe].
  2: { assert (partialExecutionVersion stored s = (Throw TypeError, s))
         as ->; [|done].
       unfold partialExecutionVersion. rewrite bind_run. unfold read.
       cbv beta iota. by rewrite bind_run, Hpe. }
  destruct (get_opt_cases pe "version" s) as [[v Hv] | Hv].
  2: { assert (partialExecutionVersion stored s = (Throw TypeError, s))
         as ->; [|done].
       unfold partialExecutionVersion. rewrite bind_run. unfold read.
       cbv beta iota. rewrite bind_run, Hpe. cbv beta iota.
       by rewrite bind_run, Hv. }
  set (userVersion := default (VNum (-1)) stored).
  set (version := if strict_eq userVersion (VNum (-1))
                  then nullish_or v (VNum 1) else userVersion).
  set (s' := match stored with
             | Some _ => s
             | None =>
                 set_outside
                   (outside s
                    ++ [ Call "localStorage" "setItem"
                           [ VStr "PartialExecution.version";
                             VStr "-1" ] ])%list s
             end).
  assert (partialExecutionVersion stored s
          = (Normal (if negb (strict_eq version (VNum 1)
                              || strict_eq version (VNum 2))
                     then VNum 1 else version), s')) as ->.
  { unfold partialExecutionVersion. rewrite bind_run. unfold read.
    cbv beta iota. rewrite bind_run, Hpe. cbv beta iota.
    rewrite bind_run, Hv. cbv beta iota zeta. rewrite bind_run.
    unfold version, userVersion, s'.
    destruct stored as [u|]; cbn [useLocalStorage default from_option id];
      [|rewrite bind_run; cbn [outcall_ modify]];
      unfold mret, M_ret; cbv beta iota;
      change (pretty (-1)) with "-1"; by destruct (negb _). }
  cbn [fst snd]. unfold version, userVersion, s', strict_eq.
  clear version userVersion s'.
  destruct stored as [u|]; cbn [default from_option id];
    repeat case_bool_decide; simplify_eq/=; auto.
Qed.

(** [submitContactInfo] never throws: it returns what the request resolved
    with, and [undefined] when the request rejects or the settings cannot be
    read.  The store is left as it was, but for the record of the
    request. *)
Theorem submitContactInfo_never_throws (email : string) (currentUserId : value)
    (r : completion error value) (s : store) :
  ∃ v calls,
    submitContactInfo email currentUserId r s
    = (Normal v, set_outside calls s)
    ∧ match r, (get_prop (settings s) "instanceId" s).1 with
      | Normal x, Normal _ => v = x
      | _, _ => v = VUndef
      end.
Proof.
  unfold submitContactInfo, try_catch. rewrite bind_run.
  unfold read at 1. cbv beta iota. rewrite bind_run.
  destruct (get_prop_cases (settings s) "instanceId" s) as [[i ->] | ->].
  - cbn [fst]. rewrite bind_run. cbn [outcall_ modify]. cbv beta iota.
    destruct r as [x|e]; cbn [await]; by eexists _, _.
  - cbn [fst]. exists VUndef, (outside s). split; [by destruct s|].
    by destruct r.
Qed.

(** The health flag is raised exactly by a probe that resolves in less than
    two seconds, on a store whose [templatesHost] can be read: then the call
    returns and the flag is [true].  In every other case the call rejects
    and the flag stays as it was; a probe that rejects in time rejects the
    call with its own error. *)
Theorem testTemplatesEndpoint_outcome (probe : probe_outcome) (s : store) :
  let s' := (testTemplatesEndpoint probe s).2 in
  match (templatesHost s).1, probe with
  | Normal _, ProbeSettles ms (Normal _) =>
      if Nat.ltb ms 2000
      then (testTemplatesEndpoint probe s).1 = Normal tt
           ∧ templatesEndpointHealthy s' = true
      else (testTemplatesEndpoint probe s).1 = Throw (Rejected VUndef)
           ∧ templatesEndpointHealthy s' = templatesEndpointHealthy s
  | Normal _, ProbeSettles ms (Throw e) =>
      (testTemplatesEndpoint probe s).1
        = Throw (if Nat.ltb ms 2000 then e else Rejected VUndef)
      ∧ templatesEndpointHealthy s' = templatesEndpointHealthy s
  | Normal _, ProbeNever =>
      (testTemplatesEndpoint probe s).1 = Throw (Rejected VUndef)
      ∧ templatesEndpointHealthy s' = templatesEndpointHealthy s
  | Throw e, _ =>
      (testTemplatesEndpoint probe s).1 = Throw e
      ∧ templatesEndpointHealthy s' = templatesEndpointHealthy s
  end.
Proof.
  pose proof (testTemplatesEndpoint_run probe s) as H. simpl in H.
  assert ((templatesHost
             (set_outside
                (outside s ++ [Call "window" "setTimeout" [VNum 2000]])%list s)).1
          = (templatesHost s).1) as Heq.
  { unfold templatesHost, get_opt, get_prop, read. rewrite !bind_run.
    simpl. by repeat (case_match; simplify_eq/=; try done). }
  rewrite Heq in H. simpl.
  destruct ((templatesHost s).1) as [host|e']; [|by rewrite H].
  destruct probe as [ms [v|e]|]; simpl in H.
  - destruct (Nat.ltb ms 2000); by rewrite H.
  - destruct (Nat.ltb ms 2000); by rewrite H.
  - by rewrite H.
Qed.

End edges.

(** *** Defaults, [disableTemplates] *)

Section defaults.
Import SettingsStore.

(** On a settings object that has none of the optional properties (a store
    that has not fetched yet, or one that was reset) the getters fall back:
    not docker, deployment 'default', tags enabled, templates disabled, both
    security flags on, partial execution version 1 (with -1 in the local
    storage, and with nothing there); concurrency counts as
    enabled, since only the number -1 disables it; and [consumerId] throws,
    there being no [license] to read it from. *)
Theorem settings_defaults (s : store) (p : loc) (o : gmap string value) :
  settings s = VRef p → heap s !! p = Some o → lacks o optional_settings →
  (isDocker s).1 = Normal (VBool false)
  ∧ (deploymentType s).1 = Normal (VStr "default")
  ∧ (isCloudDeployment s).1 = Normal false
  ∧ (isConcurrencyEnabled s).1 = Normal true
  ∧ (areTagsEnabled s).1 = Normal true
  ∧ (isTemplatesEnabled s).1 = Normal false
  ∧ (templatesHost s).1 = Normal VUndef
  ∧ (security s).1 = Normal (VBool true, VBool true)
  ∧ (partialExecutionVersion (Some (VNum (-1))) s).1 = Normal (VNum 1)
  ∧ (partialExecutionVersion None s).1 = Normal (VNum 1)
  ∧ (consumerId s).1 = Throw TypeError.
Proof.
  intros Hs Ho Hlack. unfold lacks, optional_settings in Hlack.
  repeat (apply Forall_cons in Hlack as [? Hlack]).
  unfold isDocker, deploymentType, isCloudDeployment, isConcurrencyEnabled,
    concurrency, areTagsEnabled, isTemplatesEnabled, templatesHost, security,
    partialExecutionVersion, useLocalStorage, consumerId.
  repeat match goal with |- _ ∧ _ => split end;
    repeat first
      [ rewrite bind_run
      | progress unfold read
      | rewrite Hs
      | rewrite (get_prop_run s p o _ Ho)
      | match goal with H : o !! _ = None |- _ => rewrite H end
      | progress cbn [default from_option id get_opt nullish truthy mret M_ret
                      outcall_ modify]
      | progress cbv beta iota ];
    reflexivity.
Qed.

Lemma settings_defaults_witness :
  let s := useSettingsStore (Build_browser_env "" "" "" "" "") in
  (isConcurrencyEnabled s).1 = Normal true
  ∧ (consumerId s).1 = Throw TypeError.
Proof.
  intros s.
  pose proof (settings_defaults s 0%nat ∅ eq_refl eq_refl) as H.
  split; apply H; unfold lacks, optional_settings;
    repeat (apply Forall_cons_2; [apply lookup_empty|]); apply Forall_nil_2.
Defined.

(** [disableTemplates] on a settings object whose [templates] is an object
    or missing: it returns; [isTemplatesEnabled] is then [false]; the host
    of the templates and every other property of the settings read as
    before; and the objects that were there are not written to (the
    settings and their [templates] are replaced by copies). *)
Theorem disableTemplates_disables (s : store) (p : loc)
    (o : gmap string value) :
  settings s = VRef p → heap s !! p = Some o →
  object_or_nullish (heap s) (default VUndef (o !! "templates")) = true →
  ∃ s', disableTemplates s = (Normal tt, s')
    ∧ (isTemplatesEnabled s').1 = Normal false
    ∧ (templatesHost s').1 = (templatesHost s).1
    ∧ (∀ k, k ≠ "templates" →
            (get_prop (settings s') k s').1 = (get_prop (settings s) k s).1)
    ∧ (∀ l, (l < length (heap s))%nat → heap s' !! l = heap s !! l).
Proof.
  intros Hs Ho Ht.
  set (t := default VUndef (o !! "templates")) in *.
  assert (∃ tprops, spread t s = (Normal tprops, s)
            ∧ (get_opt t "host" s).1 = Normal (default VUndef (tprops !! "host")))
    as (tprops & Hspread & Hhost).
  { apply orb_prop in Ht as [Hobj|Hn].
    - destruct (is_object_lookup _ _ Hobj) as (lt & ot & -> & Hot).
      exists ot. unfold spread, get_opt, get_prop. simpl. by rewrite Hot.
    - exists ∅. destruct t; try done. }
  set (nt := length (heap s)).
  set (tobj := with_props tprops [("enabled", VBool false)]).
  set (sobj := with_props o [("templates", VRef nt)]).
  set (s' := set_settings (VRef (S nt))
               (set_heap ((heap s ++ [tobj]) ++ [sobj]) s)).
  assert (disableTemplates s = (Normal tt, s')) as Hrun.
  { unfold disableTemplates. rewrite bind_run. unfold read at 1.
    cbv beta iota. rewrite Hs. rewrite bind_run. unfold spread at 1.
    rewrite Ho. cbv beta iota.
    rewrite bind_run, (get_prop_run s p o _ Ho). cbv beta iota. fold t.
    rewrite bind_run, Hspread. cbv beta iota.
    rewrite bind_run. unfold alloc at 1. cbv beta iota.
    rewrite bind_run. unfold alloc at 1. cbv beta iota.
    unfold modify, s', sobj, tobj, nt. simpl. rewrite length_app. simpl.
    by rewrite Nat.add_1_r. }
  assert (heap s' !! S nt = Some sobj) as Hnew.
  { simpl. rewrite lookup_app_r; rewrite length_app; simpl; [|lia].
    unfold nt. by replace (S (length (heap s)) - (length (heap s) + 1))%nat
      with 0%nat by lia. }
  assert (heap s' !! nt = Some tobj) as Hnewt.
  { simpl. rewrite lookup_app_l by (rewrite length_app; simpl; unfold nt; lia).
    unfold nt. by rewrite list_lookup_middle. }
  assert (sobj !! "templates" = Some (VRef nt)) as Hst.
  { unfold sobj, with_props, assign_props. simpl. apply lookup_insert_eq. }
  assert (tobj !! "enabled" = Some (VBool false)) as Hte.
  { unfold tobj, with_props, assign_props. simpl. apply lookup_insert_eq. }
  assert (tobj !! "host" = tprops !! "host") as Hth.
  { unfold tobj, with_props, assign_props. simpl. by apply lookup_insert_ne. }
  exists s'. split; [done|].
  change (settings s') with (VRef (S nt)).
  unfold isTemplatesEnabled, templatesHost.
  repeat split;
    try (repeat first
      [ rewrite bind_run
      | progress unfold read
      | progress change (settings s') with (VRef (S nt))
      | rewrite Hs
      | rewrite (get_prop_run s' _ sobj _ Hnew)
      | rewrite (get_prop_run s' _ tobj _ Hnewt)
      | rewrite (get_prop_run s p o _ Ho)
      | rewrite Hst | rewrite Hte | rewrite Hth
      | progress fold t
      | progress cbn [default from_option id get_opt nullish truthy mret M_ret
                      fst]
      | progress cbv beta iota ];
      first [reflexivity | by rewrite Hhost]).
  - intros k Hk. rewrite Hs.
    rewrite (get_prop_run s' _ sobj _ Hnew), (get_prop_run s p o _ Ho).
    unfold sobj, with_props, assign_props. simpl.
    by rewrite lookup_insert_ne.
  - intros l Hl. simpl. rewrite !lookup_app_l; [done|lia|].
    rewrite length_app. lia.
Qed.

Lemma disableTemplates_disables_witness :
  let s := templates_enabled_store in
  (isTemplatesEnabled s).1 = Normal true
  ∧ (isTemplatesEnabled (disableTemplates s).2).1 = Normal false
  ∧ (templatesHost (disableTemplates s).2).1
    = Normal (VStr "https://api.n8n.io/api/")
  ∧ (get_prop (settings (disableTemplates s).2) "instanceId"
       (disableTemplates s).2).1
    = Normal (VStr "i-1")
  ∧ heap (disableTemplates s).2 !! 8%nat
    = Some {[ "enabled" := VBool true;
              "host" := VStr "https://api.n8n.io/api/" ]}.
Proof.
  intros s.
  destruct (disableTemplates_disables s 7%nat
              {[ "templates" := VRef 8%nat; "instanceId" := VStr "i-1" ]}
              eq_refl eq_refl eq_refl)
    as (s' & Hrun & H1 & H2 & H3 & H4).
  rewrite Hrun. cbn [snd].
  split; [reflexivity|]. split; [exact H1|].
  split; [by rewrite H2|].
  split; [by rewrite (H3 "instanceId")|].
  rewrite (H4 8%nat); [reflexivity|]. vm_compute. lia.
Defined.

End defaults.

(** *** What a run leaves in place *)

Section kept.
Import SettingsStore.

Lemma kept_but_refl (ks : list string) (s : store) : kept_but ks s s.
Proof. by intros l k _ Hl. Qed.

Lemma kept_but_alloc (ks : list string) (s0 s : store)
    (o : gmap string value) :
  kept_but ks s0 s → kept_but ks s0 (set_heap (heap s ++ [o]) s).
Proof.
  intros H l k Hk Hl. destruct (H l k Hk Hl) as [Hl1 E1].
  destruct (same_prop_alloc l k o s Hl1) as [Hl2 E2].
  split; [done|congruence].
Qed.

Lemma kept_but_set (ks : list string) (s0 s : store) (l' : loc)
    (o : gmap string value) (k' : string) (x : value) :
  k' ∈ ks → heap s !! l' = Some o → kept_but ks s0 s →
  kept_but ks s0 (set_heap (<[l' := <[k' := x]> o]> (heap s)) s).
Proof.
  intros Hin Ho H l k Hk Hl. destruct (H l k Hk Hl) as [Hl1 E1].
  assert (k' ≠ k) as Hne by (by intros ->).
  destruct (same_prop_set_prop l k k' x s l' o Hne Ho Hl1) as [Hl2 E2].
  split; [done|congruence].
Qed.

(** What a spread copies from an object that was there is what it would have
    copied at the start, but for the properties written since. *)
Lemma spread_or_empty_kept (ks : list string) (s0 s : store) (v : value) :
  live (heap s0) v = true → (length (heap s0) ≤ length (heap s))%nat →
  kept_but ks s0 s →
  ∃ b0 b, spread_or_empty v s0 = (Normal b0, s0)
          ∧ spread_or_empty v s = (Normal b, s)
          ∧ ∀ k, k ∉ ks → b !! k = b0 !! k.
Proof.
  intros Hl Hlen H. unfold spread_or_empty.
  destruct (truthy v); [|by exists ∅, ∅].
  destruct v as [| | | | |l]; try (by eexists _, _).
  simpl in Hl. apply bool_decide_eq_true in Hl.
  destruct (lookup_lt_is_Some_2 (heap s0) l Hl) as [b0 Hb0].
  assert (l < length (heap s))%nat as Hl' by lia.
  destruct (lookup_lt_is_Some_2 (heap s) l Hl') as [b Hb].
  exists b0, b. unfold spread. unfold loc in *. rewrite Hb0, Hb.
  split; [done|]. split; [done|].
  intros k Hk. destruct (H l k Hk Hl) as [_ E]. unfold prop_of in E.
  unfold loc in *. by rewrite Hb0, Hb in E.
Qed.

(** A read of a property that has not been written answers as at the
    start. *)
Lemma get_opt_kept (ks : list string) (s s' : store) (v : value)
    (k : string) (a : value) :
  live (heap s) v = true → kept_but ks s s' → k ∉ ks →
  get_opt v k s' = (Normal a, s') → get_opt v k s = (Normal a, s).
Proof.
  intros Hl H Hk. unfold get_opt.
  destruct v as [| | | | |l]; cbn [nullish get_prop];
    try (by intros [= <-]).
  simpl in Hl. apply bool_decide_eq_true in Hl.
  destruct (H l k Hk Hl) as [Hl' E].
  destruct (lookup_lt_is_Some_2 (heap s) l Hl) as [o Ho].
  destruct (lookup_lt_is_Some_2 (heap s') l Hl') as [o' Ho'].
  unfold prop_of in E. unfold loc in *. rewrite Ho, Ho' in E |- *.
  simpl in E. intros [= <-]. by rewrite E.
Qed.

(** Reads do not look at the record of outside calls. *)
Lemma get_opt_outside (v : value) (k : string) (a : value)
    (calls : list outcall) (s : store) :
  get_opt v k s = (Normal a, s) →
  get_opt v k (set_outside calls s) = (Normal a, set_outside calls s).
Proof.
  unfold get_opt, get_prop.
  destruct v as [| | | | |l]; cbn [nullish]; try (by intros [= <-]).
  change (heap (set_outside calls s)) with (heap s).
  destruct (heap s !! l); [|done]. by intros [= <-].
Qed.


(** Whether the cookie is marked secure does not depend on the record of
    outside calls. *)
Lemma secure_cookie_outside (calls : list outcall) (s : store) (v : value) :
  secure_cookie (set_outside calls s) v = secure_cookie s v.
Proof.
  unfold secure_cookie. rewrite !bind_run.
  destruct (get_prop_cases v "authCookie" s) as [[a Ha] | Ha].
  - assert (get_prop v "authCookie" (set_outside calls s)
            = (Normal a, set_outside calls s)) as ->.
    { revert Ha. unfold get_prop. destruct v as [| | | | |l]; try done;
        try (by intros [= <-]).
      change (heap (set_outside calls s)) with (heap s).
      destruct (heap s !! l); [|done]. by intros [= <-]. }
    rewrite Ha. cbv beta iota.
    destruct (get_opt_cases a "secure" s) as [[b Hb] | Hb].
    + by rewrite (get_opt_outside a "secure" b calls s Hb), Hb.
    + rewrite Hb. revert Hb. unfold get_opt, get_prop.
      destruct a as [| | | | |l]; cbn [nullish]; try done.
      change (heap (set_outside calls s)) with (heap s).
      by destruct (heap s !! l).
  - rewrite Ha. revert Ha. unfold get_prop.
    destruct v as [| | | | |l]; try done.
    change (heap (set_outside calls s)) with (heap s).
    by destruct (heap s !! l).
Qed.

Lemma setSettings_outcome_outside (calls : list outcall) (s : store)
    (v : value) :
  setSettings_outcome (set_outside calls s) v = setSettings_outcome s v.
Proof.
  unfold setSettings_outcome, parser_refuses.
  by rewrite secure_cookie_outside.
Qed.

End kept.

(** *** [setSettings] on a payload of the heap *)

Section ingestion.
Import SettingsStore.

Variables (s0 : store) (p lm lf : loc) (o0 : gmap string value).

Hypothesis payload_at : heap s0 !! p = Some o0.
Hypothesis payload_live :
  ∀ k, k ∈ dereferenced → live (heap s0) (default VUndef (o0 !! k)) = true.
Hypothesis payload_userManagement :
  is_object (heap s0) (default VUndef (o0 !! "userManagement")) = true
  ∨ truthy (default VUndef (o0 !! "userManagement")) = false.
Hypothesis mfa_at : mfa s0 = VRef lm.
Hypothesis mfa_object : is_object (heap s0) (VRef lm) = true.
Hypothesis folders_at : folders s0 = VRef lf.
Hypothesis folders_object : is_object (heap s0) (VRef lf) = true.

Local Abbreviation ingesting := (ingesting_at s0 p lm lf o0).
Local Abbreviation patched := (patched_at s0 p o0).

Lemma ingesting_get (k : string) :
  k ∈ payload_reads →
  hoare ingesting (get_prop (VRef p) k)
    (λ a s, a = default VUndef (o0 !! k) ∧ ingesting s).
Proof.
  intros Hk s Hs. pose proof Hs as (_ & _ & _ & _ & _ & (o & Ho & Hsame) & _).
  exists (default VUndef (o0 !! k)), s. split; [|done].
  rewrite (get_prop_run s p o k Ho). by rewrite Hsame.
Qed.

Lemma ingesting_get_any (v : value) (k : string) :
  live (heap s0) v = true → nullish v = false →
  hoare ingesting (get_prop v k) (λ _, ingesting).
Proof.
  intros Hl Hn s Hs. pose proof Hs as (_ & _ & _ & _ & Hlen & _).
  destruct (get_prop_ok s v k (live_mono _ _ _ Hlen Hl) Hn) as [a Ha].
  by exists a, s.
Qed.

Lemma ingesting_get_opt (v : value) (k : string) :
  live (heap s0) v = true →
  hoare ingesting (get_opt v k) (λ _, ingesting).
Proof.
  intros Hl s Hs. pose proof Hs as (_ & _ & _ & _ & Hlen & _).
  destruct (get_opt_ok s v k (live_mono _ _ _ Hlen Hl)) as [a Ha].
  by exists a, s.
Qed.

Lemma ingesting_set (v : value) (k : string) (x : value) :
  is_object (heap s0) v = true → k ∉ payload_reads →
  k ∈ setSettings_writes →
  hoare ingesting (set_prop v k x) (λ _, ingesting).
Proof.
  intros Hv Hk Hw s Hs.
  pose proof Hs as (H1 & H2 & H3 & H4 & Hlen & (o & Ho & Hsame) & Hkept).
  destruct (is_object_lookup (heap s) v (is_object_mono _ _ _ Hlen Hv))
    as (l & ol & -> & Hol).
  exists tt, (set_heap (<[l := <[k := x]> ol]> (heap s)) s).
  split; [by apply set_prop_run|].
  split; [done|]. split; [done|]. split; [done|]. split; [done|].
  split; [simpl; by rewrite length_insert|].
  split; [|by apply kept_but_set]. simpl.
  - destruct (decide (l = p)) as [->|Hne].
    + exists (<[k := x]> ol). split.
      * apply list_lookup_insert_eq. by eapply lookup_lt_Some.
      * intros k' Hk'. rewrite lookup_insert_ne by (by intros ->).
        assert (ol = o) as -> by congruence. by apply Hsame.
    + exists o. split; [|done]. by rewrite list_lookup_insert_ne.
Qed.


Lemma ingesting_read_settings :
  hoare ingesting (read settings) (λ a s, a = VRef p ∧ ingesting s).
Proof.
  intros s Hs. exists (settings s), s. pose proof Hs as (H & _).
  split; [reflexivity|]. by split.
Qed.

Lemma ingesting_read_userManagement :
  hoare ingesting (read userManagement)
    (λ a s, a = default VUndef (o0 !! "userManagement") ∧ ingesting s).
Proof.
  intros s Hs. exists (userManagement s), s. pose proof Hs as (_ & H & _).
  split; [reflexivity|]. by split.
Qed.

Lemma ingesting_read_mfa :
  hoare ingesting (read mfa) (λ a s, a = VRef lm ∧ ingesting s).
Proof.
  intros s Hs. exists (mfa s), s. pose proof Hs as (_ & _ & H & _).
  split; [reflexivity|]. by split.
Qed.

Lemma ingesting_read_folders :
  hoare ingesting (read folders) (λ a s, a = VRef lf ∧ ingesting s).
Proof.
  intros s Hs. exists (folders s), s. pose proof Hs as (_ & _ & _ & H & _).
  split; [reflexivity|]. by split.
Qed.

Lemma ingesting_set_api (v : value) :
  hoare ingesting (modify (set_api v)) (λ _, ingesting).
Proof. apply hoare_modify. by intros s Hs. Qed.

(** The first three statements establish [ingesting]. *)
Lemma ingesting_start :
  ingesting
    (set_userManagement (default VUndef (o0 !! "userManagement"))
       (set_settings (VRef p) s0)).
Proof.
  split; [done|]. split; [done|]. split; [done|]. split; [done|].
  split; [done|]. split; [by exists o0|]. by intros l k _ Hl.
Qed.

Lemma patch_block :
  hoare ingesting
    (ent ← get_prop (VRef p) "enterprise";
     props ← spread_or_empty ent;
     fresh_ ← alloc (with_props props enterprise_overrides);
     set_prop (VRef p) "enterprise" fresh_;;
     lic ← get_prop (VRef p) "license";
     props ← spread_or_empty lic;
     fresh_ ← alloc (with_props props license_overrides);
     set_prop (VRef p) "license" fresh_)
    (λ _, patched).
Proof.
  intros s (Hset & _ & _ & _ & Hlen & (o & Ho & Hsame) & Hkept).
  assert (p < length (heap s))%nat as Hplt by (by eapply lookup_lt_Some).
  assert ("enterprise" ∈ setSettings_writes ∧ "license" ∈ setSettings_writes)
    as [Hwe Hwl] by (split; unfold setSettings_writes; cbn [footprint];
                     in_list).
  (* enterprise *)
  rewrite bind_run, (get_prop_run s p o _ Ho). cbv beta iota.
  rewrite (Hsame "enterprise") by (in_list).
  destruct (spread_or_empty_kept setSettings_writes s0 s
              (default VUndef (o0 !! "enterprise")))
    as (be0 & be & Hbe0 & Hbe & Hbek); [|exact Hlen|exact Hkept|].
  { apply payload_live. in_list. }
  rewrite bind_run, Hbe. cbv beta iota.
  rewrite bind_run. unfold alloc at 1. cbv beta iota.
  set (eo := with_props be enterprise_overrides).
  set (ne := length (heap s)).
  set (sa := set_heap (heap s ++ [eo]) s).
  assert (heap sa !! p = Some o) as Hoa.
  { simpl. by rewrite lookup_app_l. }
  rewrite bind_run, (set_prop_run sa p o _ _ Hoa). cbv beta iota.
  set (ob := <["enterprise" := VRef ne]> o).
  set (sb := set_heap (<[p := ob]> (heap sa)) sa).
  assert (heap sb !! p = Some ob) as Hob.
  { simpl. apply list_lookup_insert_eq. rewrite length_app. lia. }
  (* license *)
  rewrite bind_run, (get_prop_run sb p ob _ Hob). cbv beta iota.
  assert (ob !! "license" = o0 !! "license") as ->.
  { unfold ob. rewrite lookup_insert_ne by done.
    apply Hsame. in_list. }
  assert (length (heap s0) ≤ length (heap sb))%nat as Hlenb.
  { simpl. rewrite length_insert, length_app. lia. }
  assert (kept_but setSettings_writes s0 sb) as Hkeptb.
  { apply kept_but_set; [exact Hwe|exact Hoa|]. by apply kept_but_alloc. }
  destruct (spread_or_empty_kept setSettings_writes s0 sb
              (default VUndef (o0 !! "license")))
    as (bl0 & bl & Hbl0 & Hbl & Hblk); [|exact Hlenb|exact Hkeptb|].
  { apply payload_live. in_list. }
  rewrite bind_run, Hbl. cbv beta iota.
  rewrite bind_run. unfold alloc at 1. cbv beta iota.
  set (lo := with_props bl license_overrides).
  set (nl := length (heap sb)).
  set (sc := set_heap (heap sb ++ [lo]) sb).
  assert (heap sc !! p = Some ob) as Hoc.
  { simpl. rewrite lookup_app_l; [|rewrite length_insert, length_app; lia].
    apply list_lookup_insert_eq. rewrite length_app. lia. }
  rewrite (set_prop_run sc p ob _ _ Hoc).
  eexists tt, _. split; [reflexivity|].
  assert (length (heap sb) = S ne) as Hsb.
  { simpl. rewrite length_insert, length_app. simpl. unfold ne. lia. }
  split; [done|]. split.
  { simpl. rewrite length_insert, length_app, length_insert, length_app. lia. }
  exists (<["license" := VRef nl]> ob), ne, nl, be, bl. simpl.
  repeat match goal with |- _ ∧ _ => split end.
  - apply list_lookup_insert_eq.
    rewrite length_app, length_insert, length_app. lia.
  - rewrite lookup_insert_ne by done. apply lookup_insert_eq.
  - rewrite list_lookup_insert_ne by (unfold nl, ne in *; lia).
    rewrite lookup_app_l by (rewrite length_insert, length_app; simpl; unfold ne; lia).
    rewrite list_lookup_insert_ne by (unfold ne; lia).
    unfold ne. by rewrite list_lookup_middle.
  - apply lookup_insert_eq.
  - rewrite list_lookup_insert_ne by (unfold nl; lia).
    unfold nl. by rewrite list_lookup_middle.
  - unfold ob. rewrite !lookup_insert_ne by done.
    apply Hsame. in_list.
  - unfold ob. rewrite !lookup_insert_ne by done.
    apply Hsame. in_list.
  - exact Hlen.
  - unfold nl. lia.
  - exists be0. split; [by rewrite Hbe0|exact Hbek].
  - exists bl0. split; [by rewrite Hbl0|exact Hblk].
  - apply (kept_but_set _ _ sc); [exact Hwl|exact Hoc|].
    by apply kept_but_alloc.
Qed.


Lemma patched_get (k : string) :
  k ∈ [ "versionCli"; "authCookie" ] →
  hoare patched (get_prop (VRef p) k)
    (λ a s, a = default VUndef (o0 !! k) ∧ patched s).
Proof.
  intros Hk s Hs.
  pose proof Hs
    as (_ & _ & o & ne & nl & be & bl & Ho & _ & _ & _ & _ & Hv & Ha & _).
  exists (default VUndef (o0 !! k)), s. split; [|done].
  rewrite (get_prop_run s p o k Ho).
  apply elem_of_cons in Hk as [->|Hk]; [by rewrite Hv|].
  apply list_elem_of_singleton in Hk as ->. by rewrite Ha.
Qed.

Lemma patched_read_settings :
  hoare patched (read settings) (λ a s, a = VRef p ∧ patched s).
Proof.
  intros s Hs. exists (settings s), s. pose proof Hs as (H & _).
  split; [reflexivity|]. by split.
Qed.

Lemma patched_get_opt (v : value) (k : string) :
  live (heap s0) v = true → hoare patched (get_opt v k) (λ _, patched).
Proof.
  intros Hl s Hs. pose proof Hs as (_ & Hlen & _).
  destruct (get_opt_ok s v k (live_mono _ _ _ Hlen Hl)) as [a Ha].
  by exists a, s.
Qed.

Lemma patched_get_opt_result (v : value) (k : string) :
  live (heap s0) v = true →
  hoare patched (get_opt v k)
    (λ a s, get_opt v k s = (Normal a, s) ∧ patched s).
Proof.
  intros Hl s Hs. pose proof Hs as (_ & Hlen & _).
  destruct (get_opt_ok s v k (live_mono _ _ _ Hlen Hl)) as [a Ha].
  by exists a, s.
Qed.

Lemma patched_outcall (t m : string) (args : list value) :
  hoare patched (outcall_ t m args) (λ _, patched).
Proof. apply hoare_modify. by intros s Hs. Qed.

(** How [setSettings] ends on the payload: by throwing when the cookie is
    marked secure and the user agent is empty, by returning otherwise. *)
Local Abbreviation ended := (λ (c : completion error unit) (s : store),
  patched s
  ∧ ∃ secure,
      get_opt (default VUndef (o0 !! "authCookie")) "secure" s
      = (Normal secure, s)
      ∧ c = if truthy secure && String.eqb (navigator_userAgent (env s)) ""
            then Throw (Error "UserAgent parameter can't be empty")
            else Normal tt).

(** The check of the connection, the last statement of [setSettings]: it
    changes nothing but the record of outside calls. *)
Lemma cookie_check (secure : value) :
  ends (λ s, get_opt (default VUndef (o0 !! "authCookie")) "secure" s
             = (Normal secure, s) ∧ patched s)
    (when (truthy secure)
       (e ← read env;
        browser ← Bowser_parse e;
        when (insecure_connection e browser)
          (outcall_ "document" "write"
             [VStr (INSECURE_CONNECTION_WARNING e)])))
    ended.
Proof.
  intros s [Hsec Hp].
  match goal with |- context [when (truthy secure) ?body] =>
    set (m := when (truthy secure) body) end.
  assert (∃ calls,
            m s = (if truthy secure
                      && String.eqb (navigator_userAgent (env s)) ""
                   then Throw (Error "UserAgent parameter can't be empty")
                   else Normal tt,
                   set_outside calls s)) as [calls Hrun].
  { unfold m. destruct (truthy secure); cbn [when andb].
    2: { exists (outside s). by destruct s. }
    rewrite bind_run. unfold read. cbv beta iota.
    rewrite bind_run. unfold Bowser_parse.
    destruct (String.eqb (navigator_userAgent (env s)) "").
    { exists (outside s). by destruct s. }
    unfold mret at 1, M_ret at 1. cbv beta iota.
    destruct (insecure_connection (env s) (browser_name (env s)));
      cbn [when outcall_ modify mret M_ret].
    - by eexists.
    - exists (outside s). by destruct s. }
  rewrite Hrun. cbn [fst snd]. split; [exact Hp|]. exists secure.
  split; [by apply get_opt_outside|reflexivity].
Qed.

(** [setSettings] leaves the payload patched, however it ends. *)
Lemma setSettings_patched :
  ends (λ s, s = s0) (setSettings (VRef p)) ended.
Proof.
  unfold setSettings.
  eapply ends_bind.
  { apply (hoare_modify _ (λ s, s = set_settings (VRef p) s0)).
    intros s Hs. by rewrite Hs. }
  intros ?. eapply ends_bind.
  { apply hoare_exact. by apply (get_prop_run _ p o0). }
  intros ?. apply ends_pure. intros ->.
  eapply ends_bind.
  { apply (hoare_modify _ ingesting). intros s Hs. rewrite Hs.
    apply ingesting_start. }
  intros ?. eapply ends_bind; [apply ingesting_read_userManagement|].
  intros ?. apply ends_pure. intros ->.
  eapply ends_bind.
  { apply hoare_when; [|done]. intros Hum.
    destruct payload_userManagement as [Hobj|Hf]; [|congruence].
    eapply hoare_bind; [apply ingesting_read_settings|].
    intros ?. apply hoare_pure. intros ->.
    eapply hoare_bind; [apply ingesting_get; in_list|].
    intros ?. apply hoare_pure. intros ->.
    eapply hoare_bind.
    { apply ingesting_get_any.
      - destruct (default VUndef (o0 !! "userManagement")); done.
      - destruct (default VUndef (o0 !! "userManagement")); done. }
    intros shown. apply ingesting_set;
      [done| |unfold setSettings_writes; cbn [footprint]; in_list].
    unfold payload_reads. rewrite !not_elem_of_cons.
    repeat split; try done. apply not_elem_of_nil. }
  intros ?. eapply ends_bind; [apply ingesting_read_settings|].
  intros ?. apply ends_pure. intros ->.
  eapply ends_bind; [apply ingesting_get; in_list|].
  intros ?. apply ends_pure. intros ->.
  eapply ends_bind; [apply ingesting_set_api|].
  (* mfa *)
  intros ?. eapply ends_bind; [apply ingesting_read_mfa|].
  intros ?. apply ends_pure. intros ->.
  eapply ends_bind; [apply ingesting_read_settings|].
  intros ?. apply ends_pure. intros ->.
  eapply ends_bind; [apply ingesting_get; in_list|].
  intros ?. apply ends_pure. intros ->.
  eapply ends_bind; [apply ingesting_get_opt, payload_live; in_list|].
  intros enabled. eapply ends_bind.
  { apply ingesting_set;
      [done| |unfold setSettings_writes; cbn [footprint]; in_list].
    unfold payload_reads. rewrite !not_elem_of_cons.
    repeat split; try done. apply not_elem_of_nil. }
  (* folders *)
  intros ?. eapply ends_bind; [apply ingesting_read_folders|].
  intros ?. apply ends_pure. intros ->.
  eapply ends_bind; [apply ingesting_read_settings|].
  intros ?. apply ends_pure. intros ->.
  eapply ends_bind; [apply ingesting_get; in_list|].
  intros ?. apply ends_pure. intros ->.
  eapply ends_bind; [apply ingesting_get_opt, payload_live; in_list|].
  intros enabled'. eapply ends_bind.
  { apply ingesting_set;
      [done| |unfold setSettings_writes; cbn [footprint]; in_list].
    unfold payload_reads. rewrite !not_elem_of_cons.
    repeat split; try done. apply not_elem_of_nil. }
  (* the patch *)
  intros ?. eapply ends_bind; [apply ingesting_read_settings|].
  intros ?. apply ends_pure. intros ->.
  eapply ends_bind; [apply patch_block|].
  (* versionCli and the cookie check *)
  intros ?. eapply ends_bind; [apply patched_read_settings|].
  intros ?. apply ends_pure. intros ->.
  eapply ends_bind; [apply patched_get; in_list|].
  intros ?. apply ends_pure. intros ->.
  eapply ends_bind.
  { apply hoare_when; [|done]. intros _. apply patched_outcall. }
  intros ?. eapply ends_bind; [apply patched_get; in_list|].
  intros ?. apply ends_pure. intros ->.
  eapply ends_bind; [apply patched_get_opt_result, payload_live; in_list|].
  intros secure. apply cookie_check.
Qed.

(** The same, with the end told from the state [setSettings] starts in. *)
Lemma setSettings_ends :
  (setSettings (VRef p) s0).1 = setSettings_outcome s0 (VRef p)
  ∧ patched (setSettings (VRef p) s0).2.
Proof.
  destruct (setSettings_patched s0 eq_refl) as (Hp & secure & Hsec & Hc).
  split; [|exact Hp]. rewrite Hc.
  pose proof Hp
    as (_ & _ & o & ne & nl & be & bl & _ & _ & _ & _ & _ & _ & _ & _ & _
        & _ & _ & Hkept).
  assert (get_opt (default VUndef (o0 !! "authCookie")) "secure" s0
          = (Normal secure, s0)) as Hsec0.
  { eapply (get_opt_kept setSettings_writes s0 _ _ "secure");
      [|exact Hkept| |exact Hsec].
    - apply payload_live. in_list.
    - by apply not_in_names. }
  destruct (same_refs_setSettings (VRef p) s0) as (_ & _ & Henv & _).
  unfold setSettings_outcome, parser_refuses, secure_cookie.
  rewrite bind_run, (get_prop_run s0 p o0 _ payload_at). cbv beta iota.
  by rewrite Hsec0, Henv.
Qed.

End ingestion.

Section ingestion_claim.
Import SettingsStore.

(** Reading [payload.<a>.<k>] when [payload.<a>] is an object that has
    [k]. *)
Lemma read_path_2 (s : store) (p l : loc) (o ol : gmap string value)
    (a k : string) (v : value) :
  heap s !! p = Some o → o !! a = Some (VRef l) →
  heap s !! l = Some ol → ol !! k = Some v →
  (read_path (VRef p) [a; k] s).1 = Normal v.
Proof.
  intros Hp Ha Hl Hk. simpl. rewrite bind_run, (get_prop_run s p o a Hp), Ha.
  simpl. by rewrite bind_run, (get_prop_run s l ol k Hl), Hk.
Qed.

(** What [payload_ok] says of an accepted payload. *)
Lemma payload_ok_inv (s : store) (p : loc) (o : gmap string value) :
  payload_ok s (VRef p) = true → heap s !! p = Some o →
  (∀ k, k ∈ dereferenced → live (heap s) (default VUndef (o !! k)) = true)
  ∧ (is_object (heap s) (default VUndef (o !! "userManagement")) = true
     ∨ truthy (default VUndef (o !! "userManagement")) = false).
Proof.
  unfold payload_ok. intros H Hp. rewrite Hp in H.
  apply andb_prop in H as [Hlive Hum]. split.
  - intros k Hk. rewrite forallb_forall in Hlive.
    by apply Hlive, list_elem_of_In.
  - apply orb_prop in Hum as [?|?%negb_true_iff]; auto.
Qed.




(** The same run, seen from the other side: a property the routine does not
    write keeps the payload's value, and the objects the payload pointed to
    before are left as they were (the payload gets new ones). *)
Example setSettings_community_payload_spread :
  let s' := (setSettings (VRef 7%nat) community_payload_store).2 in
  (read_path (VRef 7%nat) ["enterprise"; "ldap"] s').1 = Normal (VBool false)
  ∧ (read_path (VRef 7%nat) ["license"; "consumerId"] s').1
    = Normal (VStr "unknown")
  ∧ heap s' !! 8%nat = heap community_payload_store !! 8%nat
  ∧ heap s' !! 9%nat = heap community_payload_store !! 9%nat
  ∧ (read_path (VRef 8%nat) ["sso"] s').1 = Normal (VBool false).
Proof. cbv zeta. repeat split; vm_compute; reflexivity. Qed.


End ingestion_claim.

(** *** [getSettings] and [initialize] on a well-formed response *)

Lemma assign_props_all {V} (l : list (string * V)) (o : gmap string V) :
  NoDup l.*1 → Forall (λ kv, assign_props o l !! kv.1 = Some kv.2) l.
Proof.
  intros Hnd. apply Forall_forall. intros [k v] Hin. simpl.
  apply assign_props_lookup, elem_of_list_to_map_1.
  - by rewrite fmap_reverse, reverse_Permutation.
  - by apply elem_of_reverse.
Qed.

Section fetched.
Import SettingsStore.

Variables (sinit : store) (p lm lf : loc) (o0 : gmap string value).

Hypothesis payload_at : heap sinit !! p = Some o0.
Hypothesis payload_live :
  ∀ k, k ∈ dereferenced → live (heap sinit) (default VUndef (o0 !! k)) = true.
Hypothesis payload_userManagement :
  is_object (heap sinit) (default VUndef (o0 !! "userManagement")) = true
  ∨ truthy (default VUndef (o0 !! "userManagement")) = false.
Hypothesis telemetry_live :
  live (heap sinit) (default VUndef (o0 !! "telemetry")) = true.
Hypothesis mfa_at : mfa sinit = VRef lm.
Hypothesis mfa_object : is_object (heap sinit) (VRef lm) = true.
Hypothesis folders_at : folders sinit = VRef lf.
Hypothesis folders_object : is_object (heap sinit) (VRef lf) = true.

Local Abbreviation forced := (forced_at sinit p (o0 !! "telemetry")).

(** A write of property [k] changes no other property of any object. *)
Lemma lookup_after_set (h : list (gmap string value)) (l l' : loc)
    (o ol : gmap string value) (k : string) (x : value) :
  h !! l = Some o → h !! l' = Some ol →
  ∃ ol', <[l := <[k := x]> o]> h !! l' = Some ol'
         ∧ ∀ k', k' ≠ k → ol' !! k' = ol !! k'.
Proof.
  intros Ho Hol. destruct (decide (l = l')) as [->|Hne].
  - exists (<[k := x]> o). split.
    + apply list_lookup_insert_eq. by eapply lookup_lt_Some.
    + intros k' Hk'. rewrite lookup_insert_ne by done. congruence.
  - exists ol. split; [|done]. by rewrite list_lookup_insert_ne.
Qed.

Lemma forced_get (k : string) :
  hoare forced (get_prop (VRef p) k) (λ _, forced).
Proof.
  intros s Hs. pose proof Hs as (_ & _ & o & ? & ? & ? & ? & Ho & _).
  eexists _, s. split; [by apply (get_prop_run s p o)|done].
Qed.

Lemma forced_get_telemetry :
  hoare forced (get_prop (VRef p) "telemetry")
    (λ a s, a = default VUndef (o0 !! "telemetry") ∧ forced s).
Proof.
  intros s Hs.
  pose proof Hs as (_ & _ & o & ? & ? & ? & ? & Ho & _ & _ & _ & _ & _ & _ & Ht).
  eexists _, s. split; [by apply (get_prop_run s p o)|]. by rewrite Ht.
Qed.

Lemma forced_get_opt (v : value) (k : string) :
  live (heap sinit) v = true → hoare forced (get_opt v k) (λ _, forced).
Proof.
  intros Hl s Hs. pose proof Hs as (_ & Hlen & _).
  destruct (get_opt_ok s v k (live_mono _ _ _ Hlen Hl)) as [a Ha].
  by exists a, s.
Qed.

Lemma forced_read_settings :
  hoare forced (read settings) (λ a s, a = VRef p ∧ forced s).
Proof.
  intros s Hs. exists (settings s), s. pose proof Hs as (H & _).
  split; [reflexivity|]. by split.
Qed.

Lemma forced_modify (f : store → store) :
  (∀ s, heap (f s) = heap s ∧ settings (f s) = settings s) →
  hoare forced (modify f) (λ _, forced).
Proof.
  intros Hf. apply hoare_modify. intros s (H1 & H2 & H3).
  destruct (Hf s) as [Hh Hset]. unfold forced_at. by rewrite Hh, Hset.
Qed.

Lemma forced_outcall (t m : string) (args : list value) :
  hoare forced (outcall_ t m args) (λ _, forced).
Proof. apply forced_modify. by intros s. Qed.

Lemma forced_alloc (o : gmap string value) :
  hoare forced (alloc o) (λ _, forced).
Proof.
  intros s (Hset & Hlen & ob & ne & nl & eo & lo
            & Ho & He & Hne & Hfe & Hl & Hnl & Hfl & Ht).
  eexists _, _. split; [reflexivity|]. split; [done|]. split.
  { simpl. rewrite length_app. lia. }
  exists ob, ne, nl, eo, lo. simpl.
  rewrite !lookup_app_l by (by eapply lookup_lt_Some). done.
Qed.

Lemma forced_set (k : string) (x : value) :
  k ∉ forced_keys → hoare forced (set_prop (VRef p) k x) (λ _, forced).
Proof.
  intros Hk s (Hset & Hlen & ob & ne & nl & eo & lo
               & Ho & He & Hne & Hfe & Hl & Hnl & Hfl & Ht).
  eexists tt, _. split; [by apply (set_prop_run s p ob)|].
  split; [done|]. split; [simpl; by rewrite length_insert|].
  destruct (lookup_after_set (heap s) p ne ob eo k x Ho Hne)
    as (eo' & Hne' & Heo').
  destruct (lookup_after_set (heap s) p nl ob lo k x Ho Hnl)
    as (lo' & Hnl' & Hlo').
  assert (∀ k', k' ∈ forced_keys → k ≠ k') as Hne_k
    by (by intros k' Hin <-).
  assert (k ≠ "enterprise" ∧ k ≠ "license" ∧ k ≠ "telemetry")
    as (Hk1 & Hk2 & Hk3).
  { repeat split; apply Hne_k; unfold forced_keys; simpl; in_list. }
  exists (<[k := x]> ob), ne, nl, eo', lo'. simpl.
  split. { apply list_lookup_insert_eq. by eapply lookup_lt_Some. }
  split. { by rewrite lookup_insert_ne. }
  split; [exact Hne'|].
  split.
  { apply Forall_forall. intros kv Hkv.
    rewrite Forall_forall in Hfe. rewrite Heo'; [by apply Hfe|].
    intros Heq. apply (Hne_k kv.1); [|done]. unfold forced_keys.
    rewrite !elem_of_app. right. left. by apply list_elem_of_fmap_2. }
  split. { by rewrite lookup_insert_ne. }
  split; [exact Hnl'|].
  split.
  { apply Forall_forall. intros kv Hkv.
    rewrite Forall_forall in Hfl. rewrite Hlo'; [by apply Hfl|].
    intros Heq. apply (Hne_k kv.1); [|done]. unfold forced_keys.
    rewrite !elem_of_app. right. right. by apply list_elem_of_fmap_2. }
  by rewrite lookup_insert_ne.
Qed.

Lemma forced_forward_all (l : list (string * string)) :
  hoare forced (forward_all (VRef p) l) (λ _, forced).
Proof.
  induction l as [|[a b] l IH]; simpl.
  - intros s Hs. by exists tt, s.
  - eapply hoare_bind; [apply forced_get|]. intros x.
    eapply hoare_bind; [apply forced_outcall|]. intros ?. apply IH.
Qed.

Local Abbreviation s0 :=
  (set_outside (outside sinit ++ [Call "settingsApi" "getSettings" []])%list
     sinit).

Lemma patched_forced (s : store) :
  patched_at s0 p o0 s → s = (setSettings (VRef p) s0).2 → forced s.
Proof.
  intros (Hset & Hlen & o & ne & nl & be & bl
          & Ho & He & Hne & Hl & Hnl & _) Hs.
  split; [done|]. split; [exact Hlen|].
  exists o, ne, nl, (with_props be enterprise_overrides),
    (with_props bl license_overrides).
  repeat match goal with |- _ ∧ _ => split end; try done.
  - apply assign_props_all. by apply distinct_names_NoDup.
  - apply assign_props_all. by apply distinct_names_NoDup.
  - assert (p < length (heap s0))%nat as Hp
      by (by eapply lookup_lt_Some, payload_at).
    destruct (same_prop_setSettings p "telemetry" (VRef p)
                ltac:(by apply not_in_names) s0 Hp) as [_ Hsame].
    rewrite <- Hs in Hsame. unfold prop_of in Hsame.
    rewrite Ho in Hsame. simpl in Hsame. rewrite Hsame.
    change (heap s0) with (heap sinit). by rewrite payload_at.
Qed.

Lemma forced_saves :
  (∀ x, hoare forced (setSaveDataErrorExecution x) (λ _, forced))
  ∧ (∀ x, hoare forced (setSaveDataSuccessExecution x) (λ _, forced))
  ∧ (∀ x, hoare forced (setSaveDataProgressExecution x) (λ _, forced))
  ∧ (∀ x, hoare forced (setSaveManualExecutions x) (λ _, forced)).
Proof. repeat split; intros x; apply forced_modify; by intros s. Qed.

(** [getSettings] on the response ends as its [setSettings] does, and the
    writes that follow [setSettings] leave the forced values in place. *)
Lemma getSettings_forced :
  ends (λ s, s = sinit) (getSettings (Normal (VRef p)))
    (λ c s, c = setSettings_outcome sinit (VRef p) ∧ forced s).
Proof.
  destruct forced_saves as (Hs1 & Hs2 & Hs3 & Hs4).
  unfold getSettings.
  eapply ends_bind; [by apply (hoare_exact _ sinit s0 tt)|].
  intros ?. apply ends_pure. intros _.
  eapply ends_bind; [by apply (hoare_exact _ s0 s0 (VRef p))|].
  intros ?. apply ends_pure. intros ->.
  eapply (ends_bind_throw _ _
            (λ c s, c = setSettings_outcome sinit (VRef p) ∧ forced s)).
  { intros s Hs. rewrite Hs.
    destruct (setSettings_ends s0 p lm lf o0 payload_at payload_live
                payload_userManagement mfa_at mfa_object folders_at
                folders_object) as [Hout Hpatched].
    split; [|by apply (patched_forced _ Hpatched)].
    rewrite Hout. apply setSettings_outcome_outside. }
  2: { by intros e s Hs. }
  intros []. apply ends_pure. intros Hout.
  eapply (ends_hoare _ _ (λ _, forced));
    [|intros [] s Hs; split; [exact Hout|exact Hs]].
  eapply hoare_bind; [apply forced_read_settings|].
  intros ?. apply hoare_pure. intros ->.
  eapply hoare_bind; [apply forced_get|]. intros x1.
  eapply hoare_bind; [by apply forced_set, not_in_names|].
  intros ?. eapply hoare_bind; [apply forced_read_settings|].
  intros ?. apply hoare_pure. intros ->.
  eapply hoare_bind; [apply forced_get|]. intros x2.
  eapply hoare_bind; [by apply forced_set, not_in_names|].
  intros ?. eapply hoare_bind; [apply forced_get|]. intros x3.
  eapply hoare_bind.
  { unfold setAllowedModules.
    eapply hoare_bind; [apply forced_read_settings|].
    intros ?. apply hoare_pure. intros ->.
    by apply forced_set, not_in_names. }
  intros ?. eapply hoare_bind; [apply forced_get|]. intros x4.
  eapply hoare_bind; [apply Hs1|].
  intros ?. eapply hoare_bind; [apply forced_get|]. intros x5.
  eapply hoare_bind; [apply Hs2|].
  intros ?. eapply hoare_bind; [apply forced_get|]. intros x6.
  eapply hoare_bind; [apply Hs3|].
  intros ?. eapply hoare_bind; [apply forced_get|]. intros x7.
  eapply hoare_bind; [apply Hs4|].
  intros ?. eapply hoare_bind; [apply forced_forward_all|].
  intros ?. eapply hoare_bind; [apply forced_get|]. intros x8.
  eapply (hoare_bind _ _ (λ _, forced)).
  { destruct (truthy x8).
    - intros s Hs. by exists x8, s.
    - apply forced_alloc. }
  intros metadata. eapply hoare_bind; [apply forced_outcall|].
  intros ?. eapply hoare_bind; [apply forced_forward_all|].
  intros ?. eapply hoare_bind; [apply forced_get|]. intros x9.
  eapply hoare_bind; [apply forced_outcall|].
  intros ?. eapply hoare_bind; [apply forced_get_telemetry|].
  intros ?. apply hoare_pure. intros ->.
  eapply hoare_bind; [by apply forced_get_opt|]. intros enabled.
  apply hoare_when; [|done]. intros _. apply forced_outcall.
Qed.

End fetched.

Section fetched_claim.
Import SettingsStore.

(** On a store that is not initialized, [initialize] with a well-formed
    response ends as the [setSettings] of that response does.  It returns
    and sets the flag, unless the cookie is marked secure and the user agent
    is empty: then it throws the error of [Bowser.parse] and leaves the flag
    [false].  Either way the response is the settings and is still forced
    when the call is done: the writes that [getSettings] makes after
    [setSettings] neither fail nor undo the patch. *)
Theorem initialize_forces_payload (s : store) (payload : value) :
  initialized s = false → store_ok s = true →
  response_ok s payload = true →
  let s' := (initialize (Normal payload) s).2 in
  (initialize (Normal payload) s).1 = setSettings_outcome s payload
  ∧ initialized s' = negb (parser_refuses s payload)
  ∧ settings s' = payload
  ∧ Forall (λ k, (read_path payload ["enterprise"; k] s').1
                 = Normal (VBool true))
      [ "variables"; "advancedPermissions"; "sourceControl"; "auditLogs";
        "sso"; "logStreaming"; "workflowHistory"; "debugInEditor";
        "binaryDataS3"; "multipleMainInstances"; "workerView" ]
  ∧ (read_path payload ["license"; "planName"] s').1
    = Normal (VStr "Enterprise")
  ∧ (read_path payload ["license"; "isValidLicense"] s').1
    = Normal (VBool true)
  ∧ (read_path payload ["license"; "validConsumerId"] s').1
    = Normal (VStr "enterprise-consumer").
Proof.
  intros Hinit [Hm Hf]%andb_prop [Hpayload Htel]%andb_prop.
  destruct (is_object_lookup _ _ Hm) as (lm & om & Hmfa & _).
  destruct (is_object_lookup _ _ Hf) as (lf & of' & Hfolders & _).
  rewrite Hmfa in Hm. rewrite Hfolders in Hf.
  destruct payload as [| | | | |p]; try done.
  destruct (heap s !! p) as [o0|] eqn:Hp; [|done].
  destruct (payload_ok_inv s p o0 Hpayload Hp) as [Hlive' Hum'].
  pose proof (getSettings_forced s p lm lf o0 Hp Hlive' Hum' Htel Hmfa Hm
                Hfolders Hf s eq_refl) as [Hout Hforced].
  pose proof (same_initialized_getSettings (Normal (VRef p)) s) as Hi.
  unfold same_initialized in Hi. rewrite Hinit in Hi.
  cbv zeta. rewrite (initialize_run _ _ Hinit).
  unfold setSettings_outcome in *.
  destruct (getSettings (Normal (VRef p)) s) as [[[]|e] s1];
    cbn [fst snd] in *;
    destruct (parser_refuses s (VRef p)); try discriminate Hout;
    (split; [exact Hout|]); (split; [done|]);
    destruct Hforced as (Hset & _ & o & ne & nl & eo & lo
                         & Ho & Hent & Hne & Hfe & Hlic & Hnl & Hfl & _);
    (split; [done|]);
    rewrite Forall_forall in Hfe, Hfl;
    match goal with |- context [read_path _ _ ?s'] =>
      (split; [|repeat split]);
      [ repeat (apply Forall_cons_2;
          [apply (read_path_2 s' p ne o _ _ _ _ Ho Hent Hne);
           apply (Hfe (_, VBool true)); unfold enterprise_overrides;
           in_list|]);
        apply Forall_nil_2
      | apply (read_path_2 s' p nl o _ _ _ _ Ho Hlic Hnl);
        apply (Hfl (_, _)); unfold license_overrides; in_list .. ]
    end.
Qed.

Lemma initialize_forces_payload_witness :
  let s1 := (initialize (Normal (VRef 7%nat)) community_payload_store).2 in
  let s2 := (initialize (Normal (VRef 7%nat)) secure_payload_store).2 in
  ((initialize (Normal (VRef 7%nat)) community_payload_store).1 = Normal tt
   ∧ initialized s1 = true
   ∧ (read_path (VRef 7%nat) ["license"; "planName"] s1).1
     = Normal (VStr "Enterprise"))
  ∧ ((initialize (Normal (VRef 7%nat)) secure_payload_store).1
     = Throw (Error "UserAgent parameter can't be empty")
     ∧ initialized s2 = false
     ∧ (read_path (VRef 7%nat) ["license"; "planName"] s2).1
       = Normal (VStr "Enterprise")).
Proof.
  intros s1 s2. split.
  - destruct (initialize_forces_payload community_payload_store
                (VRef 7%nat))
      as (H1 & H2 & _ & _ & H3 & _); try (vm_compute; reflexivity).
    split; [etransitivity; [exact H1|vm_compute; reflexivity]|].
    split; [etransitivity; [exact H2|vm_compute; reflexivity]|exact H3].
  - destruct (initialize_forces_payload secure_payload_store (VRef 7%nat))
      as (H1 & H2 & _ & _ & H3 & _); try (vm_compute; reflexivity).
    split; [etransitivity; [exact H1|vm_compute; reflexivity]|].
    split; [etransitivity; [exact H2|vm_compute; reflexivity]|exact H3].
Defined.

End fetched_claim.

(** *** [userManagement] after [setSettings] *)

Section user_management.
Import SettingsStore.

(** How [setSettings] runs up to and including the write of
    [showSetupOnFirstLoad], on a payload whose [userManagement] is an
    object: the rest runs from a state [sE] in which the ref holds that
    object and the flag is a boolean, and it leaves the ref, that flag and
    the payload's [userManagement] property alone. *)
Lemma setSettings_to_showSetup (s : store) (p l : loc)
    (o ou : gmap string value) :
  heap s !! p = Some o → o !! "userManagement" = Some (VRef l) →
  heap s !! l = Some ou →
  ∃ (sE : store) (rest : M unit),
    (setSettings (VRef p) s).2 = (rest sE).2
    ∧ respects same_userManagement rest
    ∧ respects (same_prop l "showSetupOnFirstLoad") rest
    ∧ respects (same_prop p "userManagement") rest
    ∧ userManagement sE = VRef l
    ∧ (l < length (heap sE))%nat ∧ (p < length (heap sE))%nat
    ∧ prop_of sE l "showSetupOnFirstLoad"
      = Some (VBool (truthy (default VUndef (ou !! "showSetupOnFirstLoad"))))
    ∧ prop_of sE p "userManagement" = Some (VRef l).
Proof.
  intros Hp Hum Hl.
  set (b := truthy (default VUndef (ou !! "showSetupOnFirstLoad"))).
  set (s1 := set_userManagement (VRef l) (set_settings (VRef p) s)).
  set (sE := set_heap (<[l := <["showSetupOnFirstLoad" := VBool b]> ou]>
                         (heap s1)) s1).
  exists sE. eexists. split.
  { unfold setSettings. rewrite bind_run. cbn [modify]. cbv beta iota.
    rewrite bind_run, (get_prop_run (set_settings (VRef p) s) p o _ Hp), Hum.
    cbv beta iota.
    cbn [default from_option id].
    rewrite bind_run. cbn [modify]. cbv beta iota. fold s1.
    rewrite bind_run. unfold read at 1. cbv beta iota.
    change (userManagement s1) with (VRef l). cbn [truthy when].
    rewrite bind_run. rewrite bind_run. unfold read at 1. cbv beta iota.
    change (settings s1) with (VRef p).
    rewrite bind_run, (get_prop_run s1 p o _ Hp), Hum. cbv beta iota.
    cbn [default from_option id].
    rewrite bind_run, (get_prop_run s1 l ou _ Hl). cbv beta iota.
    rewrite (set_prop_run s1 l ou _ _ Hl). fold b. fold sE.
    cbv beta iota. reflexivity. }
  assert (l < length (heap s))%nat as Hll by (by eapply lookup_lt_Some).
  assert (p < length (heap s))%nat as Hpl by (by eapply lookup_lt_Some).
  split; [unfold Bowser_parse; frame field_tac|].
  split; [unfold Bowser_parse; frame prop_tac_lit|].
  split; [unfold Bowser_parse; frame prop_tac_lit|].
  assert (heap sE = <[l := <["showSetupOnFirstLoad" := VBool b]> ou]> (heap s))
    as HsE by done.
  split; [done|]. rewrite HsE, length_insert.
  split; [done|]. split; [done|]. unfold prop_of. rewrite HsE. split.
  - rewrite list_lookup_insert_eq by done. cbn. by rewrite lookup_insert_eq.
  - destruct (decide (l = p)) as [->|Hne].
    + rewrite list_lookup_insert_eq by done. cbn.
      rewrite lookup_insert_ne by done. congruence.
    + rewrite list_lookup_insert_ne by done. unfold loc in *.
      by rewrite Hp.
Qed.

Lemma prop_of_Some (s : store) (l : loc) (k : string) (v : value) :
  prop_of s l k = Some v →
  ∃ o, heap s !! l = Some o ∧ o !! k = Some v.
Proof.
  unfold prop_of. destruct (heap s !! l) as [o|]; [|done]. by exists o.
Qed.

(** After [setSettings] on a payload whose [userManagement] is an object,
    however the call ends: the [userManagement] ref holds that very object
    (not a copy), its [showSetupOnFirstLoad] has become a boolean, the
    truthiness of what the payload said; so [stopShowingSetupPage] returns
    and is seen through the payload as well. *)
Theorem setSettings_shares_userManagement (s : store) (p l : loc)
    (o ou : gmap string value) :
  heap s !! p = Some o → o !! "userManagement" = Some (VRef l) →
  heap s !! l = Some ou →
  let s' := (setSettings (VRef p) s).2 in
  userManagement s' = VRef l
  ∧ (showSetupPage s').1
    = Normal (VBool (truthy (default VUndef (ou !! "showSetupOnFirstLoad"))))
  ∧ ∃ s'',
      stopShowingSetupPage s' = (Normal tt, s'')
      ∧ (showSetupPage s'').1 = Normal (VBool false)
      ∧ (read_path (VRef p) ["userManagement"; "showSetupOnFirstLoad"] s'').1
        = Normal (VBool false).
Proof.
  intros Hp Hum Hl.
  destruct (setSettings_to_showSetup s p l o ou Hp Hum Hl)
    as (sE & rest & Hrun & Hr1 & Hr2 & Hr3 & HumE & HlE & HpE & Hshow & Hpum).
  cbv zeta. rewrite Hrun.
  pose proof (Hr1 sE) as Hum'. unfold same_userManagement in Hum'.
  rewrite HumE in Hum'.
  destruct (Hr2 sE HlE) as [_ Hshow']. rewrite Hshow in Hshow'.
  destruct (Hr3 sE HpE) as [_ Hpum']. rewrite Hpum in Hpum'.
  clear Hrun Hr1 Hr2 Hr3 HumE HlE HpE Hshow Hpum.
  set (s' := (rest sE).2) in *. clearbody s'.
  destruct (prop_of_Some _ _ _ _ Hshow') as (ou' & Hl' & Hk').
  destruct (prop_of_Some _ _ _ _ Hpum') as (o' & Hp' & Hko').
  split; [done|]. split.
  { unfold showSetupPage. rewrite bind_run. unfold read. cbv beta iota.
    by rewrite Hum', (get_prop_run s' l ou' _ Hl'), Hk'. }
  set (s'' := set_heap
                (<[l := <["showSetupOnFirstLoad" := VBool false]> ou']>
                   (heap s')) s').
  assert (heap s'' !! l
          = Some (<["showSetupOnFirstLoad" := VBool false]> ou')) as Hl''.
  { apply list_lookup_insert_eq. by eapply lookup_lt_Some. }
  exists s''. split.
  { unfold stopShowingSetupPage. rewrite bind_run. unfold read.
    cbv beta iota. by rewrite Hum', (set_prop_run s' l ou' _ _ Hl'). }
  split.
  { unfold showSetupPage. rewrite bind_run. unfold read. cbv beta iota.
    change (userManagement s'') with (userManagement s').
    by rewrite Hum', (get_prop_run s'' l _ _ Hl''), lookup_insert_eq. }
  destruct (lookup_after_set (heap s') l p ou' o' "showSetupOnFirstLoad"
              (VBool false) Hl' Hp') as (op & Hop & Hsame).
  apply (read_path_2 s'' p l op
           (<["showSetupOnFirstLoad" := VBool false]> ou')
           "userManagement" "showSetupOnFirstLoad" (VBool false) Hop);
    [|exact Hl''|].
  - by rewrite Hsame.
  - apply lookup_insert_eq.
Qed.

Lemma setSettings_shares_userManagement_witness :
  let s' := (setSettings (VRef 7%nat) community_payload_store).2 in
  userManagement s' = VRef 10%nat
  ∧ (showSetupPage s').1 = Normal (VBool false).
Proof.
  intros s'.
  destruct (setSettings_shares_userManagement community_payload_store
              7%nat 10%nat
              {[ "enterprise" := VRef 8%nat; "license" := VRef 9%nat;
                 "userManagement" := VRef 10%nat;
                 "versionCli" := VStr "1.0.0" ]}
              {[ "quota" := VNum (-1) ]})
    as (H1 & H2 & _); try (vm_compute; reflexivity).
  split; [exact H1|exact H2].
Defined.

End user_management.
